(** * multipyline: dedent, indent and template substitution of multiline text

    A shallow embedding of [src/multipyline/__init__.py] and of the Python
    built-ins it calls ([str.strip], [str.splitlines], [str.count],
    [str.find], [str.startswith], [str.format], [textwrap.dedent],
    [textwrap.indent]).

    A Python [str] is a sequence of Unicode code points: it is modelled as a
    list of code points ([N]).  The built-ins follow CPython 3.11
    ([Objects/unicodeobject.c], [Objects/stringlib/unicode_format.h],
    [Lib/textwrap.py]). *)

From Stdlib Require Import NArith ZArith Lia Bool.
From stdpp Require Import base option list strings.

Open Scope N_scope.

(** ** Outcomes of a call *)

(** The exceptions the module and its built-ins raise on the inputs that are
    modelled. *)
Inductive exn : Type :=
  | ValueError
  | IndexError.

(** A call returns a value or raises.  [Unmodelled] marks the one place where
    the embedding stops: a format string with a replacement field other than
    the bare [{}] (an index, a name, a conversion or a format
    specification), see [Py.format].  What a call returns or raises is only
    stated below for inputs on which it does not arise. *)
Inductive outcome (A : Type) : Type :=
  | Return (a : A)
  | Raise (e : exn)
  | Unmodelled.
Arguments Return {A} a.
Arguments Raise {A} e.
Arguments Unmodelled {A}.

#[global] Instance outcome_ret : MRet outcome := fun A a => Return a.
#[global] Instance outcome_bind : MBind outcome := fun A B f m =>
  match m with
  | Return a => f a
  | Raise e => Raise e
  | Unmodelled => Unmodelled
  end.
#[global] Instance outcome_fmap : FMap outcome := fun A B f m =>
  match m with
  | Return a => Return (f a)
  | Raise e => Raise e
  | Unmodelled => Unmodelled
  end.

(** ** Python strings *)

Module Py.

Abbreviation char := N (only parsing).
Abbreviation str := (list N) (only parsing).

(** A string literal, code point by code point. *)
Definition lit (s : string) : str :=
  map Ascii.N_of_ascii (String.list_ascii_of_string s).

Definition LF : char := 0x0A.
Definition CR : char := 0x0D.
Definition TAB : char := 0x09.
Definition SPACE : char := 0x20.
Definition LBRACE : char := 0x7B.
Definition RBRACE : char := 0x7D.

(** [Py_UNICODE_ISSPACE]: the code points [str.isspace] and [str.strip]
    treat as whitespace. *)
Definition isspace (c : char) : bool :=
  ((0x09 <=? c) && (c <=? 0x0D)) || ((0x1C <=? c) && (c <=? 0x20))
  || (c =? 0x85) || (c =? 0xA0) || (c =? 0x1680)
  || ((0x2000 <=? c) && (c <=? 0x200A))
  || (c =? 0x2028) || (c =? 0x2029) || (c =? 0x202F) || (c =? 0x205F)
  || (c =? 0x3000).

(** [Py_UNICODE_ISLINEBREAK]: the line boundaries of [str.splitlines]. *)
Definition is_linebreak (c : char) : bool :=
  ((0x0A <=? c) && (c <=? 0x0D)) || ((0x1C <=? c) && (c <=? 0x1E))
  || (c =? 0x85) || (c =? 0x2028) || (c =? 0x2029).

(** [s.startswith(p)] *)
Fixpoint startswith (s p : str) {struct p} : bool :=
  match p with
  | [] => true
  | y :: p' =>
      match s with
      | [] => false
      | x :: s' => (x =? y) && startswith s' p'
      end
  end.

(** [s.lstrip()], [s.rstrip()], [s.strip()] with no argument. *)
Fixpoint lstrip (s : str) : str :=
  match s with
  | [] => []
  | c :: r => if isspace c then lstrip r else s
  end.

Definition rstrip (s : str) : str := reverse (lstrip (reverse s)).

Definition strip (s : str) : str := rstrip (lstrip s).

(** [s.splitlines(keepends)]: a line ends at a line boundary, CR LF counts
    as one boundary, and a final boundary opens no further line. *)
Fixpoint splitlines (keepends : bool) (s : str) : list str :=
  match s with
  | [] => []
  | c :: rest =>
      if is_linebreak c then
        match rest with
        | d :: rest' =>
            if (c =? CR) && (d =? LF)
            then (if keepends then [c; d] else []) :: splitlines keepends rest'
            else (if keepends then [c] else []) :: splitlines keepends rest
        | [] => [if keepends then [c] else []]
        end
      else
        match splitlines keepends rest with
        | [] => [[c]]
        | l :: ls => (c :: l) :: ls
        end
  end.

(** [s.split("\n")] and ["\n".join(ls)]: the lines that [^] and [$] delimit
    in a [re.MULTILINE] pattern. *)
Fixpoint split_nl (s : str) : list str :=
  match s with
  | [] => [[]]
  | c :: rest =>
      if c =? LF then [] :: split_nl rest
      else match split_nl rest with
           | [] => [[c]]
           | l :: ls => (c :: l) :: ls
           end
  end.

Fixpoint join_nl (ls : list str) : str :=
  match ls with
  | [] => []
  | [l] => l
  | l :: ls' => l ++ LF :: join_nl ls'
  end.

(** [s.find(sub)]: the index of the first occurrence, or -1. *)
Fixpoint find_from (sub s : str) (i : Z) : Z :=
  if startswith s sub then i
  else match s with
       | [] => (-1)%Z
       | _ :: r => find_from sub r (i + 1)%Z
       end.

Definition find (s sub : str) : Z := find_from sub s 0%Z.

(** [sub in s] *)
Definition contains (sub s : str) : bool := (0 <=? find s sub)%Z.

(** [s.count(sub)]: the number of occurrences that do not overlap, found
    from left to right; [skip] is what is left of the occurrence just
    counted. *)
Fixpoint count_from (sub s : str) (skip : nat) : nat :=
  match s with
  | [] => 0%nat
  | _ :: r =>
      match skip with
      | S k => count_from sub r k
      | O => if startswith s sub
             then S (count_from sub r (length sub - 1))
             else count_from sub r 0
      end
  end.

Definition count (s sub : str) : nat :=
  match sub with
  | [] => S (length s)
  | _ => count_from sub s 0
  end.

(** [s[:i]] *)
Definition slice_to (s : str) (i : Z) : str :=
  if (i <? 0)%Z then take (length s - Z.to_nat (- i)) s
  else take (Z.to_nat i) s.

(** [l[i]] and [l[i] = v] on a list, for an index that is not negative: out
    of range they raise [IndexError]. *)
Definition getitem (l : list str) (i : nat) : outcome str :=
  match l !! i with
  | Some x => Return x
  | None => Raise IndexError
  end.

Definition setitem (l : list str) (i : nat) (v : str) : outcome (list str) :=
  if decide (i < length l)%nat then Return (<[i:=v]> l) else Raise IndexError.

(** [s.format] applied to positional arguments that are strings, as
    [MarkupIterator_next] and [output_markup] do it: literal text is copied,
    a doubled brace stands for one brace, a lone brace raises [ValueError],
    and the field [{}] is replaced by the next argument, [IndexError] when
    there is none ([format(a, '')] of a string [a] is [a]).  [auto] is the
    counter of the automatic field numbering.  Any other replacement field is
    outside the embedding. *)
Fixpoint format_from (s : str) (args : list str) (auto : nat) : outcome str :=
  match s with
  | [] => Return []
  | c :: rest =>
      if c =? LBRACE then
        match rest with
        | [] => Raise ValueError
        | d :: rest' =>
            if d =? LBRACE then cons LBRACE <$> format_from rest' args auto
            else if d =? RBRACE then
              a ← getitem args auto;
              app a <$> format_from rest' args (S auto)
            else Unmodelled
        end
      else if c =? RBRACE then
        match rest with
        | [] => Raise ValueError
        | d :: rest' =>
            if d =? RBRACE then cons RBRACE <$> format_from rest' args auto
            else Raise ValueError
        end
      else cons c <$> format_from rest args auto
  end.

Definition format (s : str) (args : list str) : outcome str :=
  format_from s args 0.

End Py.

(** ** textwrap *)

Module Textwrap.
Import Py.

Definition is_space_or_tab (c : char) : bool := (c =? SPACE) || (c =? TAB).

(** [_whitespace_only_re.sub('', text)]: the pattern, in [re.MULTILINE]
    mode, is a whole line of one or more spaces and tabs; every such line is
    emptied. *)
Definition blank_whitespace_only (l : str) : str :=
  if forallb is_space_or_tab l then [] else l.

Definition sub_whitespace_only (text : str) : str :=
  join_nl (map blank_whitespace_only (split_nl text)).

(** [_leading_whitespace_re.findall(text)]: the pattern, in [re.MULTILINE]
    mode, is the spaces and tabs at the start of a line (the group that is
    returned) followed by one character that is no space, tab or newline;
    the result is the leading spaces and tabs of every line that has another
    character after them. *)
Fixpoint leading_whitespace (l : str) : option str :=
  match l with
  | [] => None
  | c :: r => if is_space_or_tab c then cons c <$> leading_whitespace r
              else Some []
  end.

Definition findall_leading_whitespace (text : str) : list str :=
  omap leading_whitespace (split_nl text).

(** [for i, (x, y) in enumerate(zip(margin, indent)): if x != y: ...] *)
Fixpoint first_mismatch (margin indent : str) (i : nat) : option nat :=
  match margin, indent with
  | x :: m', y :: i' => if x =? y then first_mismatch m' i' (S i) else Some i
  | _, _ => None
  end.

(** One turn of the loop of [dedent] over the indents. *)
Definition update_margin (margin : option str) (indent : str) : option str :=
  match margin with
  | None => Some indent
  | Some m =>
      if startswith indent m then Some m
      else if startswith m indent then Some indent
      else match first_mismatch m indent 0 with
           | Some i => Some (take i m)
           | None => Some m
           end
  end.

(** [re.sub(r'(?m)^' + margin, '', text)] *)
Definition remove_margin (margin l : str) : str :=
  if startswith l margin then drop (length margin) l else l.

Definition sub_margin (margin text : str) : str :=
  join_nl (map (remove_margin margin) (split_nl text)).

(** [textwrap.dedent(text)] *)
Definition dedent (text : str) : str :=
  let text := sub_whitespace_only text in
  let indents := findall_leading_whitespace text in
  let margin := foldl update_margin None indents in
  match margin with
  | Some (c :: m) => sub_margin (c :: m) text
  | _ => text
  end.

(** [textwrap.indent(text, prefix, predicate)] where the predicate holds of
    every line, as [lambda _: True] does. *)
Definition indent (text prefix : str) : str :=
  concat (map (fun line => prefix ++ line) (splitlines true text)).

End Textwrap.

(** ** The module *)

Import Py Textwrap.

Definition multipyline (s : str) : str :=
  let s := dedent s in
  strip s.

Definition multipyline_inner (s prefix : str) : str :=
  let s := multipyline s in
  let s := indent s prefix in
  strip s.

(** The placeholder marker. *)
Definition TEMPLATE : str := lit "{}".

(** The loop of [multipylinef] over the lines of the template: [lines] is
    what is left of [s.splitlines()], [formatted_args] and [arg_counter] are
    the two variables the loop updates. *)
Fixpoint scan_lines (lines : list str) (args formatted_args : list str)
    (arg_counter : nat) : outcome (list str) :=
  match lines with
  | [] => Return formatted_args
  | line :: lines' =>
      if negb (contains TEMPLATE line) then
        scan_lines lines' args formatted_args arg_counter
      else if (1 <? count line TEMPLATE)%nat then Raise ValueError
      else
        argument ← getitem args arg_counter;
        let formatted_argument :=
          if (1 <? length (splitlines false argument))%nat
             && startswith (dedent line) TEMPLATE
          then
            let prefix := slice_to line (find line TEMPLATE) in
            multipyline_inner argument prefix
          else argument in
        formatted_args ← setitem formatted_args arg_counter formatted_argument;
        scan_lines lines' args formatted_args (S arg_counter)
  end.

(** [multipylinef(s, *args)].  The [print] of [formatted_args] writes to the
    standard output and leaves the result alone: it is left out. *)
Definition multipylinef (s : str) (args : list str) : outcome str :=
  formatted_args ←
    scan_lines (splitlines false s) args (replicate (length args) []) 0;
  formatted ← format s formatted_args;
  Return (multipyline formatted).

(** * Vocabulary of the properties *)

(** A line as [split_nl] cuts it has no newline. *)
Definition no_newline (l : str) : Prop := Forall (fun c => c <> LF) l.

(** A line is clean when it is not made of one or more spaces and tabs
    only: [_whitespace_only_re] leaves it as it is. *)
Definition clean_line (l : str) : Prop := blank_whitespace_only l = l.

(** A text is clean when each of its lines is. *)
Definition clean (text : str) : Prop := Forall clean_line (split_nl text).

(** [c] followed by [rest] is the two-character boundary CR LF. *)
Definition crlf (c : N) (rest : list N) : bool :=
  (c =? CR) && match rest with d :: _ => d =? LF | [] => false end.

(** A text with no line boundary of [splitlines] in it. *)
Definition no_linebreak (p : list N) : Prop := existsb is_linebreak p = false.

(** The index of the first occurrence as a natural number. *)
Fixpoint find_nat (sub s : list N) : option nat :=
  if startswith s sub then Some 0%nat
  else match s with
       | [] => None
       | _ :: r => S <$> find_nat sub r
       end.

(** The value the loop stores for a line with one marker and its
    argument. *)
Definition formatted_argument (line argument : list N) : list N :=
  if (1 <? length (splitlines false argument))%nat
     && startswith (dedent line) TEMPLATE
  then multipyline_inner argument (slice_to line (find line TEMPLATE))
  else argument.

(** The lines of the template that hold a marker, from top to bottom. *)
Definition marker_lines (s : list N) : list (list N) :=
  List.filter (contains TEMPLATE) (splitlines false s).

(** No line has more than one marker. *)
Definition single_markers (lines : list (list N)) : Prop :=
  Forall (fun l => (count l TEMPLATE <= 1)%nat) lines.

(** Every brace of the template belongs to a marker [{}]. *)
Fixpoint plain (s : list N) : bool :=
  match s with
  | [] => true
  | c :: rest =>
      if c =? LBRACE then
        match rest with
        | d :: rest' => (d =? RBRACE) && plain rest'
        | [] => false
        end
      else if c =? RBRACE then false
      else plain rest
  end.

(** Positional substitution as the specification words it: the markers of
    the template, from left to right and top to bottom, are replaced by the
    arguments in their order (a marker without an argument stays). *)
Fixpoint replace_markers (s : list N) (args : list (list N)) : list N :=
  match s with
  | [] => []
  | c :: rest =>
      match rest, args with
      | d :: rest', a :: args' =>
          if (c =? LBRACE) && (d =? RBRACE)
          then a ++ replace_markers rest' args'
          else c :: replace_markers rest args
      | _, _ => c :: replace_markers rest args
      end
  end.

(** A character that is no brace. *)
Definition no_brace (c : N) : bool := negb (c =? LBRACE) && negb (c =? RBRACE).

(** The template and the argument of the docstring example, and other
    concrete inputs. *)
Definition def_fun_template : list N :=
  join_nl [lit "    def fun():"; lit "        {}"].
Definition two_lines : list N := join_nl [lit "a"; lit "b"].

(** The claim as it is stated: a template with a line of more than one
    marker makes the call raise [ValueError] whatever the arguments. *)
Definition two_markers_raise_ValueError (s : list N) (args : list (list N)) :
    Prop :=
  (exists line, In line (splitlines false s) /\ (1 < count line TEMPLATE)%nat) ->
  multipylinef s args = Raise ValueError.

(** The claim as it is stated, in two parts: every line of the result but
    the first that is not blank begins with the prefix; the first line has
    lost the prefix, it is the first line of [multipyline s]. *)
Definition later_lines_prefixed (s p : list N) : Prop :=
  Forall (fun l => forallb isspace l = false -> startswith l p = true)
         (tl (splitlines false (multipyline_inner s p))).

Definition first_line_unprefixed (s p : list N) : Prop :=
  hd [] (splitlines false (multipyline_inner s p))
  = hd [] (splitlines false (multipyline s)).

(** The claim as it is stated: in a template with two markers on two lines
    [l1] and [l2], the first marker is replaced by the value of the first
    argument and the second by that of the second. *)
Definition positional (s a1 a2 : list N) : Prop :=
  forall l1 l2,
    count s TEMPLATE = 2%nat ->
    marker_lines s = [l1; l2] ->
    multipylinef s [a1; a2]
    = Return (multipyline
                (replace_markers s [formatted_argument l1 a1;
                                    formatted_argument l2 a2])).

(** The claim as it is stated: with more arguments than markers the call
    returns, and returns what it returns on the first [k] arguments, [k]
    the number of markers. *)
Definition spare_arguments_ignored (s : list N) (args : list (list N)) : Prop :=
  single_markers (splitlines false s) ->
  (count s TEMPLATE < length args)%nat ->
  exists r, multipylinef s args = Return r
            /\ multipylinef s (take (count s TEMPLATE) args) = Return r.

(** The characters of a text that are not whitespace, in their order. *)
Definition visible (s : list N) : list N :=
  List.filter (fun c => negb (isspace c)) s.

(** A text that neither begins nor ends with whitespace. *)
Definition trimmed (r : list N) : Prop :=
  (forall c, head r = Some c -> isspace c = false)
  /\ (forall c, last r = Some c -> isspace c = false).

(** A text that is empty or ends with a line boundary: what follows it
    starts a line. *)
Definition ends_line (s : list N) : bool :=
  match last s with
  | Some c => is_linebreak c
  | None => true
  end.

(** * Properties *)

(** ** The examples of the docstrings *)

Example multipyline_docstring :
  multipyline (join_nl [[]; lit "    First line:";
                        lit "        Indented second line";
                        lit "    Third line"; []])
  = join_nl [lit "First line:"; lit "    Indented second line";
             lit "Third line"].
Proof. vm_compute. reflexivity. Qed.

Example multipyline_docstring_blank :
  multipyline (lit "   ") = [] /\ multipyline [LF; LF; LF] = [].
Proof. split; vm_compute; reflexivity. Qed.

Example multipyline_inner_docstring :
  multipyline
    (join_nl [[]; lit "    Text below is indented:";
              lit "        "
              ++ multipyline_inner
                   (join_nl [[]; lit "    First line:";
                             lit "        Indented second line";
                             lit "    Third line"; []])
                   (lit "        ");
              []])
  = join_nl [lit "Text below is indented:"; lit "    First line:";
             lit "        Indented second line"; lit "    Third line"].
Proof. vm_compute. reflexivity. Qed.

Example multipylinef_docstring :
  multipylinef
    (join_nl [[]; lit "    def fun(x: int):";
              lit "        print('Outer part')"; lit "        {}"; lit "    "])
    [join_nl [[]; lit "    # Inner part"; lit "    if (x > 0):";
              lit "        print('Another line')"; []]]
  = Return (join_nl [lit "def fun(x: int):"; lit "    print('Outer part')";
                     lit "    # Inner part"; lit "    if (x > 0):";
                     lit "        print('Another line')"]).
Proof. vm_compute. reflexivity. Qed.

(** ** Characters *)

Lemma isspace_LF : isspace LF = true.
Proof. reflexivity. Qed.

Lemma space_or_tab_isspace c : is_space_or_tab c = true -> isspace c = true.
Proof.
  unfold is_space_or_tab. rewrite orb_true_iff, !N.eqb_eq.
  intros [-> | ->]; reflexivity.
Qed.

Lemma space_or_tab_not_LF c : is_space_or_tab c = true -> c <> LF.
Proof.
  unfold is_space_or_tab. rewrite orb_true_iff, !N.eqb_eq.
  intros [-> | ->]; discriminate.
Qed.

Lemma linebreak_isspace c : is_linebreak c = true -> isspace c = true.
Proof.
  unfold is_linebreak, isspace.
  rewrite !orb_true_iff, !andb_true_iff, !N.eqb_eq, !N.leb_le.
  intros H.
  repeat match goal with
         | |- context [ ?x <=? ?y ] => destruct (N.leb_spec x y)
         | |- context [ ?x =? ?y ] => destruct (N.eqb_spec x y)
         end; simpl; try reflexivity; lia.
Qed.

(** ** [startswith] *)

Lemma startswith_app s p : startswith (p ++ s) p = true.
Proof. induction p as [|y p IH]; simpl; [done|]. by rewrite N.eqb_refl. Qed.

Lemma startswith_spec s p :
  startswith s p = true <-> s = p ++ drop (length p) s.
Proof.
  revert s. induction p as [|y p IH]; intros s; simpl.
  - by rewrite drop_0.
  - destruct s as [|x s]; simpl; [split; intros; discriminate|].
    rewrite andb_true_iff, N.eqb_eq, IH. split.
    + intros [-> H]. by f_equal.
    + intros H. injection H as -> H. done.
Qed.

Lemma startswith_nil_r s : startswith s [] = true.
Proof. by destruct s. Qed.

(** ** [strip] *)

Lemma lstrip_whitespace s : forallb isspace s = true -> lstrip s = [].
Proof.
  induction s as [|c s IH]; simpl; [done|].
  rewrite andb_true_iff. intros [-> H]. auto.
Qed.

Lemma lstrip_idemp s : lstrip (lstrip s) = lstrip s.
Proof.
  induction s as [|c s IH]; simpl; [done|].
  destruct (isspace c) eqn:E; [done|]. simpl. by rewrite E.
Qed.

Lemma lstrip_app_nonspace x c y :
  isspace c = false -> lstrip (x ++ c :: y) = lstrip x ++ c :: y.
Proof.
  intros Hc. induction x as [|d x IH]; simpl.
  - by rewrite Hc.
  - by destruct (isspace d).
Qed.

Lemma lstrip_fixed_inv s :
  lstrip s = s -> s = [] \/ exists c r, s = c :: r /\ isspace c = false.
Proof.
  destruct s as [|c r]; [by left|]. simpl.
  destruct (isspace c) eqn:E; [|right; eauto].
  intros H. exfalso.
  assert (Hlen : (length (lstrip r) <= length r)%nat).
  { clear. induction r as [|d r IH]; simpl; [lia|].
    destruct (isspace d); simpl; lia. }
  rewrite H in Hlen. simpl in Hlen. lia.
Qed.

Lemma rstrip_nil : rstrip [] = [].
Proof. reflexivity. Qed.

Lemma rstrip_idemp s : rstrip (rstrip s) = rstrip s.
Proof. unfold rstrip. by rewrite reverse_involutive, lstrip_idemp. Qed.

Lemma rstrip_cons_nonspace c r :
  isspace c = false -> rstrip (c :: r) = c :: rstrip r.
Proof.
  intros Hc. unfold rstrip. rewrite reverse_cons.
  replace (reverse r ++ [c]) with (reverse r ++ c :: []) by done.
  rewrite lstrip_app_nonspace by done.
  by rewrite reverse_app.
Qed.

Lemma lstrip_strip s : lstrip (strip s) = strip s.
Proof.
  unfold strip.
  destruct (lstrip_fixed_inv (lstrip s) (lstrip_idemp s))
    as [-> | (c & r & -> & Hc)]; [done|].
  rewrite rstrip_cons_nonspace by done. simpl. by rewrite Hc.
Qed.

Lemma strip_fixed s : lstrip s = s -> rstrip s = s -> strip s = s.
Proof. unfold strip. by intros -> ->. Qed.

Lemma strip_idemp s : strip (strip s) = strip s.
Proof.
  apply strip_fixed; [apply lstrip_strip|]. unfold strip. apply rstrip_idemp.
Qed.

Lemma strip_whitespace s : forallb isspace s = true -> strip s = [].
Proof. intros H. unfold strip. by rewrite lstrip_whitespace. Qed.

(** ** Lines between newlines *)

Lemma split_nl_not_nil s : split_nl s <> [].
Proof.
  destruct s as [|c s]; simpl; [done|].
  destruct (c =? LF); [done|]. by destruct (split_nl s).
Qed.

Lemma split_nl_cons c s :
  split_nl (c :: s) =
    if c =? LF then [] :: split_nl s
    else (c :: hd [] (split_nl s)) :: tl (split_nl s).
Proof.
  simpl. destruct (c =? LF); [done|].
  pose proof (split_nl_not_nil s). by destruct (split_nl s).
Qed.

Lemma join_nl_cons l l' ls : join_nl (l :: l' :: ls) = l ++ LF :: join_nl (l' :: ls).
Proof. reflexivity. Qed.

Lemma join_nl_cons_char c l ls : join_nl ((c :: l) :: ls) = c :: join_nl (l :: ls).
Proof. by destruct ls. Qed.

Lemma join_split_nl s : join_nl (split_nl s) = s.
Proof.
  induction s as [|c s IH]; [done|].
  rewrite split_nl_cons. pose proof (split_nl_not_nil s) as Hne.
  destruct (N.eqb_spec c LF) as [-> | Hc].
  - destruct (split_nl s) as [|l ls]; [done|].
    rewrite join_nl_cons. simpl. by rewrite <- IH.
  - destruct (split_nl s) as [|l ls]; [done|].
    rewrite join_nl_cons_char. simpl hd. simpl tl. by rewrite IH.
Qed.

Lemma split_nl_no_newline l : no_newline l -> split_nl l = [l].
Proof.
  induction 1 as [|c l Hc _ IH]; [done|].
  rewrite split_nl_cons, IH. by destruct (N.eqb_spec c LF).
Qed.

Lemma split_nl_app_newline l s :
  no_newline l -> split_nl (l ++ LF :: s) = l :: split_nl s.
Proof.
  induction 1 as [|c l Hc _ IH]; [done|].
  rewrite <- app_comm_cons, split_nl_cons, IH.
  by destruct (N.eqb_spec c LF).
Qed.

Lemma split_nl_lines s : Forall no_newline (split_nl s).
Proof.
  induction s as [|c s IH]; [by repeat constructor|].
  rewrite split_nl_cons. pose proof (split_nl_not_nil s) as Hne.
  destruct (N.eqb_spec c LF) as [-> | Hc].
  - constructor; [constructor | done].
  - destruct (split_nl s) as [|l ls]; [done|].
    inversion IH; subst. constructor; [by constructor | done].
Qed.

Lemma split_join_nl ls :
  ls <> [] -> Forall no_newline ls -> split_nl (join_nl ls) = ls.
Proof.
  induction ls as [|l ls IH]; [done|]. intros _ H.
  inversion H as [|? ? Hl Hls]; subst.
  destruct ls as [|l' ls].
  - by apply split_nl_no_newline.
  - rewrite join_nl_cons, split_nl_app_newline by done.
    f_equal. by apply IH.
Qed.

Lemma split_nl_map_join (f : list N -> list N) s :
  (forall l, no_newline l -> no_newline (f l)) ->
  split_nl (join_nl (map f (split_nl s))) = map f (split_nl s).
Proof.
  intros Hf. apply split_join_nl.
  - pose proof (split_nl_not_nil s). by destruct (split_nl s).
  - apply Forall_map. eapply Forall_impl; [apply split_nl_lines|]. apply Hf.
Qed.

Lemma forallb_Forall {A} (f : A -> bool) l :
  forallb f l = true <-> Forall (fun x => f x = true) l.
Proof.
  induction l as [|x l IH]; simpl.
  - split; [constructor | done].
  - rewrite andb_true_iff, IH. split.
    + intros [? ?]. by constructor.
    + by inversion 1.
Qed.

Section Characters_kept.
(** [dedent] only removes characters: what holds of every character of the
    text (and of the newline) holds of every character of the result. *)
Variable P : N -> Prop.
Hypothesis P_newline : P LF.

Lemma split_nl_Forall s : Forall P s -> Forall (Forall P) (split_nl s).
Proof.
  induction 1 as [|c s Hc _ IH]; [by repeat constructor|].
  rewrite split_nl_cons. pose proof (split_nl_not_nil s) as Hne.
  destruct (c =? LF).
  - constructor; [constructor | done].
  - destruct (split_nl s) as [|l ls]; [done|].
    inversion IH; subst. constructor; [by constructor | done].
Qed.

Lemma join_nl_Forall ls : Forall (Forall P) ls -> Forall P (join_nl ls).
Proof.
  induction 1 as [|l ls Hl Hls IH]; [constructor|].
  destruct ls as [|l' ls]; [done|].
  rewrite join_nl_cons. apply Forall_app. split; [done|]. by constructor.
Qed.

Lemma blank_whitespace_only_Forall l :
  Forall P l -> Forall P (blank_whitespace_only l).
Proof.
  unfold blank_whitespace_only. destruct (forallb _ _); [constructor | done].
Qed.

Lemma remove_margin_Forall m l : Forall P l -> Forall P (remove_margin m l).
Proof.
  unfold remove_margin. destruct (startswith _ _); [|done]. apply Forall_drop.
Qed.

Lemma dedent_Forall s : Forall P s -> Forall P (dedent s).
Proof.
  intros Hs. unfold dedent.
  assert (Ht : Forall P (sub_whitespace_only s)).
  { apply join_nl_Forall, Forall_map.
    eapply Forall_impl; [by apply split_nl_Forall|].
    apply blank_whitespace_only_Forall. }
  destruct (foldl _ _ _) as [[|c m]|]; try done.
  apply join_nl_Forall, Forall_map.
  eapply Forall_impl; [by apply split_nl_Forall|].
  intros l. apply remove_margin_Forall.
Qed.
End Characters_kept.

Lemma dedent_whitespace s :
  forallb isspace s = true -> forallb isspace (dedent s) = true.
Proof.
  rewrite !forallb_Forall. apply dedent_Forall. apply isspace_LF.
Qed.

(** ** Lines that [dedent] has normalised *)

Lemma clean_line_blank l : clean_line (blank_whitespace_only l).
Proof.
  unfold clean_line, blank_whitespace_only.
  destruct (forallb is_space_or_tab l) eqn:E; [done|]. by rewrite E.
Qed.

Lemma clean_line_cons c l : is_space_or_tab c = false -> clean_line (c :: l).
Proof. intros H. unfold clean_line, blank_whitespace_only. simpl. by rewrite H. Qed.

Lemma clean_line_inv l :
  clean_line l -> l = [] \/ forallb is_space_or_tab l = false.
Proof.
  unfold clean_line, blank_whitespace_only.
  destruct (forallb is_space_or_tab l); auto.
Qed.

Lemma blank_no_newline l : no_newline l -> no_newline (blank_whitespace_only l).
Proof. apply blank_whitespace_only_Forall. Qed.

Lemma remove_margin_no_newline m l : no_newline l -> no_newline (remove_margin m l).
Proof. apply remove_margin_Forall. Qed.

Lemma remove_margin_clean m l :
  forallb is_space_or_tab m = true -> clean_line l ->
  clean_line (remove_margin m l).
Proof.
  intros Hm Hl. unfold remove_margin.
  destruct (startswith l m) eqn:E; [|done].
  apply startswith_spec in E.
  destruct (clean_line_inv l Hl) as [-> | Hf]; [by rewrite drop_nil|].
  unfold clean_line, blank_whitespace_only.
  destruct (forallb is_space_or_tab (drop (length m) l)) eqn:E'; [|done].
  rewrite E, forallb_app, Hm, E' in Hf. done.
Qed.

Lemma leading_whitespace_space_tab l ws :
  leading_whitespace l = Some ws -> forallb is_space_or_tab ws = true.
Proof.
  revert ws. induction l as [|c l IH]; intros ws; simpl; [done|].
  destruct (is_space_or_tab c) eqn:E.
  - destruct (leading_whitespace l) as [ws'|]; simpl; [|done].
    intros [= <-]. simpl. rewrite E. by apply IH.
  - by intros [= <-].
Qed.

Lemma update_margin_space_tab acc indent :
  (forall m, acc = Some m -> forallb is_space_or_tab m = true) ->
  forallb is_space_or_tab indent = true ->
  forall m, update_margin acc indent = Some m ->
            forallb is_space_or_tab m = true.
Proof.
  intros Hacc Hi m. unfold update_margin.
  destruct acc as [m0|]; [|by intros [= <-]].
  specialize (Hacc m0 eq_refl).
  destruct (startswith indent m0); [by intros [= <-]|].
  destruct (startswith m0 indent); [by intros [= <-]|].
  destruct (first_mismatch m0 indent 0) as [i|]; intros [= <-]; [|done].
  apply forallb_Forall, Forall_take. by apply forallb_Forall.
Qed.

Lemma margin_space_tab indents acc :
  (forall m, acc = Some m -> forallb is_space_or_tab m = true) ->
  Forall (fun ws => forallb is_space_or_tab ws = true) indents ->
  forall m, foldl update_margin acc indents = Some m ->
            forallb is_space_or_tab m = true.
Proof.
  intros Hacc Hi. revert acc Hacc.
  induction Hi as [|ws indents Hws _ IH]; intros acc Hacc m; simpl; [auto|].
  apply IH. by apply update_margin_space_tab.
Qed.

Lemma findall_space_tab text :
  Forall (fun ws => forallb is_space_or_tab ws = true)
         (findall_leading_whitespace text).
Proof.
  unfold findall_leading_whitespace.
  induction (split_nl text) as [|l ls IH]; simpl; [constructor|].
  destruct (leading_whitespace l) eqn:E; simpl; [|done].
  constructor; [|done]. by eapply leading_whitespace_space_tab.
Qed.

Lemma dedent_clean s : Forall clean_line (split_nl (dedent s)).
Proof.
  unfold dedent.
  assert (Ht : Forall clean_line (split_nl (sub_whitespace_only s))).
  { unfold sub_whitespace_only.
    rewrite split_nl_map_join by apply blank_no_newline.
    apply Forall_map, Forall_forall. intros l _. apply clean_line_blank. }
  destruct (foldl _ _ _) as [[|c m]|] eqn:E; try done.
  unfold sub_margin. rewrite split_nl_map_join by apply remove_margin_no_newline.
  apply Forall_map. eapply Forall_impl; [exact Ht|].
  intros l. apply remove_margin_clean.
  eapply margin_space_tab; [| apply findall_space_tab | exact E]. done.
Qed.

Lemma clean_tail_cons c s :
  Forall clean_line (tl (split_nl (c :: s))) ->
  Forall clean_line (tl (split_nl s)).
Proof.
  rewrite split_nl_cons. destruct (c =? LF); simpl; [|done].
  intros H. destruct (split_nl s); [done|]. by inversion H.
Qed.

Lemma lstrip_clean s : Forall clean_line (tl (split_nl s)) -> clean (lstrip s).
Proof.
  induction s as [|c s IH]; intros H; simpl.
  - by repeat constructor.
  - destruct (isspace c) eqn:E.
    + apply IH. by eapply clean_tail_cons.
    + unfold clean. rewrite split_nl_cons in *.
      destruct (N.eqb_spec c LF) as [-> | Hc]; [done|].
      constructor; [|done]. apply clean_line_cons.
      destruct (is_space_or_tab c) eqn:E'; [|done].
      apply space_or_tab_isspace in E'. congruence.
Qed.

Lemma split_nl_snoc_newline x : split_nl (x ++ [LF]) = split_nl x ++ [[]].
Proof.
  induction x as [|d x IH]; [done|].
  rewrite <- app_comm_cons, !split_nl_cons, IH.
  pose proof (split_nl_not_nil x).
  destruct (d =? LF); [done|]. by destruct (split_nl x).
Qed.

Lemma split_nl_snoc c x xs y :
  c <> LF -> split_nl x = xs ++ [y] -> split_nl (x ++ [c]) = xs ++ [y ++ [c]].
Proof.
  intros Hc. revert xs y.
  induction x as [|d x IH]; intros xs y.
  - simpl. destruct xs as [|? [|? ?]]; intros [= <-]; simpl.
    by destruct (N.eqb_spec c LF).
  - rewrite <- app_comm_cons, !split_nl_cons.
    pose proof (split_nl_not_nil x) as Hne.
    destruct (d =? LF).
    + destruct xs as [|z xs]; simpl.
      * intros [= _ H]. by rewrite H in Hne.
      * intros [= <- H]. by rewrite (IH xs y).
    + destruct (split_nl x) as [|h t] eqn:Ex; [done|]. simpl hd. simpl tl.
      destruct xs as [|z xs]; simpl.
      * intros [= <- ->]. by rewrite (IH [] h eq_refl).
      * intros [= <- ->]. by rewrite (IH (h :: xs) y eq_refl).
Qed.

Lemma split_nl_reverse s :
  split_nl (reverse s) = reverse (map reverse (split_nl s)).
Proof.
  induction s as [|c s IH]; [done|].
  rewrite reverse_cons, split_nl_cons.
  pose proof (split_nl_not_nil s) as Hne.
  destruct (N.eqb_spec c LF) as [-> | Hc].
  - rewrite split_nl_snoc_newline, IH. simpl. by rewrite reverse_cons.
  - destruct (split_nl s) as [|l ls]; [done|]. simpl hd. simpl tl.
    simpl map in *. rewrite !reverse_cons in *.
    by apply split_nl_snoc.
Qed.

Lemma clean_line_reverse l : clean_line l -> clean_line (reverse l).
Proof.
  intros H. destruct (clean_line_inv l H) as [-> | Hf]; [done|].
  unfold clean_line, blank_whitespace_only.
  destruct (forallb is_space_or_tab (reverse l)) eqn:E; [|done].
  apply forallb_Forall in E. rewrite Forall_reverse in E.
  apply forallb_Forall in E. congruence.
Qed.

Lemma clean_reverse s : clean s -> clean (reverse s).
Proof.
  unfold clean. rewrite split_nl_reverse. intros H.
  apply Forall_reverse, Forall_map. eapply Forall_impl; [exact H|].
  apply clean_line_reverse.
Qed.

Lemma clean_tail s : clean s -> Forall clean_line (tl (split_nl s)).
Proof. unfold clean. destruct (split_nl s); [done|]. by inversion 1. Qed.

Lemma strip_clean s : clean s -> clean (strip s).
Proof.
  intros H. unfold strip, rstrip.
  apply clean_reverse, lstrip_clean, clean_tail, clean_reverse.
  by apply lstrip_clean, clean_tail.
Qed.

(** [dedent] leaves a clean text alone when its first character is no
    whitespace: the margin it finds is empty. *)
Lemma foldl_update_margin_nil indents :
  foldl update_margin (Some []) indents = Some [].
Proof. induction indents as [|ws indents IH]; [done|]. simpl. done. Qed.

Lemma sub_whitespace_only_clean s : clean s -> sub_whitespace_only s = s.
Proof.
  intros H. unfold sub_whitespace_only.
  rewrite <- (join_split_nl s) at 2. f_equal.
  unfold clean in H. induction H as [|l ls Hl _ IH]; [done|].
  simpl. by rewrite Hl, IH.
Qed.

Lemma dedent_fixed s : clean s -> lstrip s = s -> dedent s = s.
Proof.
  intros Hc Hs. unfold dedent. rewrite sub_whitespace_only_clean by done.
  destruct (lstrip_fixed_inv s Hs) as [-> | (c & r & -> & Hsp)]; [done|].
  unfold findall_leading_whitespace. rewrite split_nl_cons.
  assert (Hst : is_space_or_tab c = false).
  { destruct (is_space_or_tab c) eqn:E; [|done].
    apply space_or_tab_isspace in E. congruence. }
  destruct (N.eqb_spec c LF) as [-> | _]; [done|].
  simpl. rewrite Hst. simpl. by rewrite foldl_update_margin_nil.
Qed.

(** ** [splitlines] *)

Lemma crlf_inv c rest :
  crlf c rest = true -> c = CR /\ exists rest', rest = LF :: rest'.
Proof.
  unfold crlf. rewrite andb_true_iff, N.eqb_eq. intros [-> H].
  destruct rest as [|d rest]; [done|]. apply N.eqb_eq in H as ->. eauto.
Qed.

Lemma splitlines_crlf k rest :
  splitlines k (CR :: LF :: rest) =
    (if k then [CR; LF] else []) :: splitlines k rest.
Proof. reflexivity. Qed.

Lemma splitlines_break k c rest :
  is_linebreak c = true -> crlf c rest = false ->
  splitlines k (c :: rest) = (if k then [c] else []) :: splitlines k rest.
Proof.
  intros Hc Hn. simpl. rewrite Hc. unfold crlf in Hn.
  destruct rest as [|d rest]; [done|]. by rewrite Hn.
Qed.

Lemma splitlines_char k c rest :
  is_linebreak c = false ->
  splitlines k (c :: rest) =
    (c :: hd [] (splitlines k rest)) :: tl (splitlines k rest).
Proof. intros Hc. simpl. rewrite Hc. by destruct (splitlines k rest). Qed.

(** Induction along the way [splitlines] reads a text. *)
Lemma lines_ind (P : list N -> Prop) :
  P [] ->
  (forall rest, P rest -> P (CR :: LF :: rest)) ->
  (forall c rest, is_linebreak c = true -> crlf c rest = false ->
                  P rest -> P (c :: rest)) ->
  (forall c rest, is_linebreak c = false -> P rest -> P (c :: rest)) ->
  forall s, P s.
Proof.
  intros Hnil Hcrlf Hbreak Hchar s.
  assert (H : forall n s, (length s <= n)%nat -> P s); [|by eapply H].
  clear s. induction n as [|n IH]; intros s Hlen.
  - destruct s; [done | simpl in Hlen; lia].
  - destruct s as [|c rest]; [done|]. simpl in Hlen.
    destruct (is_linebreak c) eqn:Ec.
    + destruct (crlf c rest) eqn:Er.
      * apply crlf_inv in Er as (-> & rest' & ->).
        apply Hcrlf, IH. simpl in Hlen. lia.
      * apply Hbreak; [done | done |]. apply IH. lia.
    + apply Hchar; [done|]. apply IH. lia.
Qed.

Lemma splitlines_nil_inv k s : splitlines k s = [] -> s = [].
Proof.
  destruct s as [|c rest]; [done|]. simpl.
  destruct (is_linebreak c).
  - destruct rest as [|d rest]; [done|]. by destruct ((c =? CR) && (d =? LF)).
  - by destruct (splitlines k rest).
Qed.

Lemma concat_splitlines s : concat (splitlines true s) = s.
Proof.
  induction s as [| rest IH | c rest Hc Hn IH | c rest Hc IH] using lines_ind.
  - done.
  - rewrite splitlines_crlf. simpl. by rewrite IH.
  - rewrite splitlines_break by done. simpl. by rewrite IH.
  - rewrite splitlines_char by done.
    destruct (splitlines true rest) as [|l ls] eqn:E.
    + apply splitlines_nil_inv in E as ->. done.
    + simpl in *. by rewrite IH.
Qed.

Lemma no_linebreak_cons c p :
  no_linebreak (c :: p) <-> is_linebreak c = false /\ no_linebreak p.
Proof. unfold no_linebreak. simpl. by rewrite orb_false_iff. Qed.

Lemma no_linebreak_lstrip p : no_linebreak p -> no_linebreak (lstrip p).
Proof.
  induction p as [|c p IH]; [done|]. simpl.
  destruct (isspace c); [|done]. intros H. apply no_linebreak_cons in H. tauto.
Qed.

(** Text without a line boundary, put in front of a text, goes to the front
    of its first line. *)
Lemma splitlines_app_prefix k p x :
  no_linebreak p ->
  splitlines k (p ++ x) =
    match splitlines k x with
    | [] => match p with [] => [] | _ => [p] end
    | l :: ls => (p ++ l) :: ls
    end.
Proof.
  induction p as [|c p IH]; intros Hp.
  - simpl. by destruct (splitlines k x).
  - apply no_linebreak_cons in Hp as [Hc Hp].
    rewrite <- app_comm_cons, splitlines_char, IH by done.
    destruct (splitlines k x) as [|l ls]; [|done].
    by destruct p.
Qed.

Lemma splitlines_lines_no_linebreak s :
  Forall no_linebreak (splitlines false s).
Proof.
  induction s as [| rest IH | c rest Hc Hn IH | c rest Hc IH] using lines_ind.
  - constructor.
  - rewrite splitlines_crlf. by constructor.
  - rewrite splitlines_break by done. by constructor.
  - rewrite splitlines_char by done.
    destruct (splitlines false rest) as [|l ls]; simpl.
    + repeat constructor. by apply no_linebreak_cons.
    + inversion IH; subst. constructor; [|done]. by apply no_linebreak_cons.
Qed.

(** ** [indent] *)

Lemma indent_nil p : indent [] p = [].
Proof. reflexivity. Qed.

Lemma indent_crlf rest p :
  indent (CR :: LF :: rest) p = p ++ CR :: LF :: indent rest p.
Proof.
  unfold indent. rewrite splitlines_crlf. simpl. by rewrite <- app_assoc.
Qed.

Lemma indent_break c rest p :
  is_linebreak c = true -> crlf c rest = false ->
  indent (c :: rest) p = p ++ c :: indent rest p.
Proof.
  intros Hc Hn. unfold indent. rewrite splitlines_break by done.
  simpl. by rewrite <- app_assoc.
Qed.

Lemma indent_char c rest p :
  is_linebreak c = false ->
  indent (c :: rest) p = p ++ c :: drop (length p) (indent rest p).
Proof.
  intros Hc. unfold indent. rewrite splitlines_char by done.
  destruct (splitlines true rest) as [|l ls]; simpl.
  - by rewrite drop_nil, app_nil_r.
  - by rewrite <- !app_assoc, drop_app_length.
Qed.

Lemma indent_cons_shape c rest p :
  exists Z, indent (c :: rest) p = p ++ c :: Z.
Proof.
  destruct (is_linebreak c) eqn:Ec; [destruct (crlf c rest) eqn:Er|].
  - apply crlf_inv in Er as (-> & rest' & ->). rewrite indent_crlf. eauto.
  - rewrite indent_break by done. eauto.
  - rewrite indent_char by done. eauto.
Qed.

Lemma crlf_indent c rest p :
  p <> [] -> no_linebreak p -> crlf c (indent rest p) = false.
Proof.
  intros Hne Hp. unfold crlf.
  destruct rest as [|d rest]; [apply andb_false_r|].
  destruct (indent_cons_shape d rest p) as [Z ->].
  destruct p as [|e p]; [done|]. simpl.
  apply no_linebreak_cons in Hp as [He _].
  destruct (N.eqb_spec e LF) as [-> | _]; [done|]. apply andb_false_r.
Qed.

Lemma splitlines_indent s p :
  p <> [] -> no_linebreak p ->
  splitlines false (indent s p) = map (app p) (splitlines false s).
Proof.
  intros Hne Hp.
  induction s as [| rest IH | c rest Hc Hn IH | c rest Hc IH] using lines_ind.
  - done.
  - rewrite indent_crlf, splitlines_app_prefix, !splitlines_crlf, IH by done.
    simpl. by rewrite app_nil_r.
  - rewrite indent_break, splitlines_app_prefix by done.
    rewrite !splitlines_break, IH by (done || by apply crlf_indent).
    simpl. by rewrite app_nil_r.
  - rewrite indent_char, splitlines_app_prefix by done.
    rewrite !splitlines_char by done.
    destruct rest as [|d rest']; [by rewrite indent_nil, drop_nil|].
    destruct (indent_cons_shape d rest' p) as [Z EZ].
    rewrite EZ, drop_app_length in *.
    rewrite splitlines_app_prefix in IH by done.
    destruct (splitlines false (d :: rest')) as [|m ms] eqn:Em.
    { by apply splitlines_nil_inv in Em. }
    destruct (splitlines false (d :: Z)) as [|l ls] eqn:El.
    { by apply splitlines_nil_inv in El. }
    simpl in IH. injection IH as Hl ->. apply app_inv_head in Hl as ->. done.
Qed.

Lemma last_indent s p : last (indent s p) = last s.
Proof.
  induction s as [| rest IH | c rest Hc Hn IH | c rest Hc IH] using lines_ind.
  - done.
  - rewrite indent_crlf, last_app, !last_cons, IH. by destruct (last rest).
  - rewrite indent_break, last_app, !last_cons, IH by done.
    by destruct (last rest).
  - rewrite indent_char, last_app, !last_cons by done.
    destruct rest as [|d rest']; [by rewrite indent_nil, drop_nil|].
    destruct (indent_cons_shape d rest' p) as [Z EZ].
    rewrite EZ, drop_app_length in *.
    rewrite last_app in IH. rewrite !last_cons in *.
    destruct (last Z), (last rest'); simpl in *; congruence.
Qed.

Lemma rstrip_last s e : last s = Some e -> isspace e = false -> rstrip s = s.
Proof.
  intros Hl He. apply last_Some in Hl as [s' ->].
  unfold rstrip. rewrite reverse_snoc. simpl. rewrite He.
  by rewrite reverse_cons, reverse_involutive.
Qed.

Lemma rstrip_fixed_last s :
  rstrip s = s -> s <> [] -> exists e, last s = Some e /\ isspace e = false.
Proof.
  unfold rstrip. intros H Hne.
  assert (H' : lstrip (reverse s) = reverse s).
  { rewrite <- H at 2. by rewrite reverse_involutive. }
  destruct (lstrip_fixed_inv _ H') as [E | (c & r & E & Hc)].
  - destruct s as [|x s]; [done|]. rewrite reverse_cons in E.
    by destruct (reverse s).
  - exists c. split; [|done].
    rewrite <- (reverse_involutive s), E, reverse_cons. apply last_snoc.
Qed.

Lemma rstrip_strip s : rstrip (strip s) = strip s.
Proof. unfold strip. apply rstrip_idemp. Qed.

(** The lines of [multipyline_inner s p] for a prefix without a line
    boundary: the lines of [multipyline s], each after the prefix, the first
    after what [strip] leaves of it. *)
Lemma multipyline_inner_lines s p :
  no_linebreak p ->
  splitlines false (multipyline_inner s p) =
    match splitlines false (multipyline s) with
    | [] => []
    | l :: ls => (lstrip p ++ l) :: map (app p) ls
    end.
Proof.
  intros Hp. unfold multipyline_inner.
  assert (Hl : lstrip (multipyline s) = multipyline s) by apply lstrip_strip.
  assert (Hr : rstrip (multipyline s) = multipyline s) by apply rstrip_strip.
  destruct p as [|e p].
  { unfold indent. simpl lstrip.
    rewrite (map_ext _ id), map_id, concat_splitlines by done.
    rewrite strip_fixed by done.
    destruct (splitlines false (multipyline s)); [done|].
    by rewrite (map_ext _ id), map_id. }
  destruct (lstrip_fixed_inv _ Hl) as [E | (c & r & E & Hc)].
  { by rewrite E. }
  destruct (rstrip_fixed_last _ Hr) as (z & Hz & Hzs); [by rewrite E|].
  pose proof (splitlines_indent (multipyline s) (e :: p)) as HX.
  pose proof (last_indent (multipyline s) (e :: p)) as HL.
  rewrite E in *. clear E Hl Hr.
  destruct (indent_cons_shape c r (e :: p)) as [Z EZ]. rewrite EZ in *.
  assert (Hs : strip ((e :: p) ++ c :: Z) = lstrip (e :: p) ++ c :: Z).
  { unfold strip. rewrite lstrip_app_nonspace by done.
    apply rstrip_last with z; [|done].
    rewrite last_app in HL |- *.
    destruct (last (c :: Z)) eqn:E1; [congruence|].
    rewrite last_cons in E1. by destruct (last Z). }
  rewrite Hs, splitlines_app_prefix by by apply no_linebreak_lstrip.
  rewrite splitlines_app_prefix in HX by done.
  destruct (splitlines false (c :: Z)) as [|l ls] eqn:El.
  { by apply splitlines_nil_inv in El. }
  destruct (splitlines false (c :: r)) as [|m ms] eqn:Em.
  { by apply splitlines_nil_inv in Em. }
  specialize (HX ltac:(done) Hp). simpl in HX.
  injection HX as Hh ->. apply app_inv_head in Hh as ->. done.
Qed.

(** ** The placeholder marker: [count], [find], [in] *)

Lemma TEMPLATE_eq : TEMPLATE = [LBRACE; RBRACE].
Proof. reflexivity. Qed.

Lemma startswith_TEMPLATE s :
  startswith s TEMPLATE =
    match s with
    | c :: d :: _ => (c =? LBRACE) && (d =? RBRACE)
    | _ => false
    end.
Proof.
  rewrite TEMPLATE_eq. destruct s as [|c [|d r]]; simpl.
  - done.
  - apply andb_false_r.
  - by rewrite andb_true_r.
Qed.

Lemma startswith_TEMPLATE_inv s :
  startswith s TEMPLATE = true -> exists r, s = LBRACE :: RBRACE :: r.
Proof.
  rewrite startswith_TEMPLATE. destruct s as [|c [|d r]]; try done.
  rewrite andb_true_iff, !N.eqb_eq. intros [-> ->]. eauto.
Qed.

Lemma count_nil : count [] TEMPLATE = 0%nat.
Proof. reflexivity. Qed.

Lemma count_marker r :
  count (LBRACE :: RBRACE :: r) TEMPLATE = S (count r TEMPLATE).
Proof. reflexivity. Qed.

Lemma count_other c r :
  startswith (c :: r) TEMPLATE = false ->
  count (c :: r) TEMPLATE = count r TEMPLATE.
Proof.
  intros H. rewrite TEMPLATE_eq in *. unfold count. simpl count_from.
  simpl in H. by rewrite H.
Qed.

Lemma count_not_lbrace c r :
  c <> LBRACE -> count (c :: r) TEMPLATE = count r TEMPLATE.
Proof.
  intros Hc. apply count_other. rewrite startswith_TEMPLATE.
  destruct r; [done|]. by destruct (N.eqb_spec c LBRACE).
Qed.

#[global] Arguments count : simpl never.

Lemma find_nat_cons sub c s :
  find_nat sub (c :: s) =
    if startswith (c :: s) sub then Some 0%nat else S <$> find_nat sub s.
Proof. reflexivity. Qed.

Lemma find_from_nat sub s i :
  find_from sub s i =
    match find_nat sub s with
    | Some n => (i + Z.of_nat n)%Z
    | None => (-1)%Z
    end.
Proof.
  revert i. induction s as [|c s IH]; intros i; simpl.
  - destruct (startswith [] sub); [lia | done].
  - destruct (startswith (c :: s) sub); [lia|].
    rewrite IH. destruct (find_nat sub s); simpl; [lia | done].
Qed.

Lemma find_nat_spec s sub :
  find s sub = match find_nat sub s with
               | Some n => Z.of_nat n
               | None => (-1)%Z
               end.
Proof. unfold find. rewrite find_from_nat. by destruct (find_nat sub s). Qed.

Lemma contains_find_nat sub s :
  contains sub s = match find_nat sub s with Some _ => true | None => false end.
Proof.
  unfold contains. rewrite find_nat_spec.
  destruct (find_nat sub s); [|done]. apply Z.leb_le. lia.
Qed.

Lemma slice_to_find s sub n :
  find_nat sub s = Some n -> slice_to s (find s sub) = take n s.
Proof.
  intros H. unfold slice_to. rewrite find_nat_spec, H.
  destruct (Z.ltb_spec (Z.of_nat n) 0); [lia|]. by rewrite Nat2Z.id.
Qed.

Lemma contains_count s :
  contains TEMPLATE s = negb (Nat.eqb (count s TEMPLATE) 0).
Proof.
  rewrite contains_find_nat.
  induction s as [|c s IH]; [done|]. rewrite find_nat_cons.
  destruct (startswith (c :: s) TEMPLATE) eqn:E.
  - apply startswith_TEMPLATE_inv in E as [r [= -> ->]].
    by rewrite count_marker.
  - rewrite count_other by done. by destruct (find_nat TEMPLATE s).
Qed.

Lemma count_app_marker_pos x y : (0 < count (x ++ TEMPLATE ++ y) TEMPLATE)%nat.
Proof.
  induction x as [|c x IH].
  - rewrite TEMPLATE_eq. simpl app. rewrite count_marker. lia.
  - rewrite <- app_comm_cons.
    destruct (startswith (c :: x ++ TEMPLATE ++ y) TEMPLATE) eqn:E.
    + apply startswith_TEMPLATE_inv in E as [r E]. rewrite E, count_marker. lia.
    + by rewrite count_other.
Qed.

(** In a line with one marker the text before the marker is what
    [line[:line.find(TEMPLATE)]] takes. *)
Lemma find_unique_marker pre post :
  count (pre ++ TEMPLATE ++ post) TEMPLATE = 1%nat ->
  find_nat TEMPLATE (pre ++ TEMPLATE ++ post) = Some (length pre).
Proof.
  induction pre as [|c pre IH]; intros H.
  - by rewrite TEMPLATE_eq.
  - rewrite <- app_comm_cons in *. rewrite find_nat_cons.
    destruct (startswith (c :: pre ++ TEMPLATE ++ post) TEMPLATE) eqn:E.
    + exfalso. rewrite startswith_TEMPLATE in E.
      destruct pre as [|d pre].
      { rewrite TEMPLATE_eq in E. simpl in E. by rewrite andb_false_r in E. }
      rewrite <- app_comm_cons in *.
      apply andb_true_iff in E as [->%N.eqb_eq ->%N.eqb_eq].
      rewrite count_marker in H.
      pose proof (count_app_marker_pos pre post). lia.
    + rewrite count_other in H by done. by rewrite IH.
Qed.

Lemma linebreak_not_brace c :
  is_linebreak c = true -> c <> LBRACE /\ c <> RBRACE.
Proof. by split; intros ->. Qed.

Lemma first_line_marker c rest :
  startswith (c :: hd [] (splitlines false rest)) TEMPLATE =
  startswith (c :: rest) TEMPLATE.
Proof.
  rewrite !startswith_TEMPLATE. destruct rest as [|d r]; [done|].
  destruct (is_linebreak d) eqn:Ed.
  - replace (hd [] (splitlines false (d :: r))) with (@nil N).
    + destruct (linebreak_not_brace d Ed) as [_ Hd].
      destruct (N.eqb_spec d RBRACE); [done|]. by rewrite andb_false_r.
    + destruct (crlf d r) eqn:Er.
      * by apply crlf_inv in Er as (-> & r' & ->).
      * by rewrite splitlines_break.
  - by rewrite splitlines_char.
Qed.

(** No marker lies across a line boundary: the occurrences in a text are
    those in its lines. *)
Lemma count_splitlines s :
  count s TEMPLATE =
    sum_list (map (fun l => count l TEMPLATE) (splitlines false s)).
Proof.
  induction s as [| rest IH | c rest Hc Hn IH | c rest Hc IH] using lines_ind.
  - done.
  - rewrite splitlines_crlf, !count_not_lbrace by done.
    simpl. exact IH.
  - destruct (linebreak_not_brace c Hc) as [Hb _].
    rewrite splitlines_break, count_not_lbrace by done.
    simpl. exact IH.
  - rewrite splitlines_char by done. simpl map. simpl sum_list.
    pose proof (first_line_marker c rest) as Hf.
    destruct (startswith (c :: rest) TEMPLATE) eqn:E.
    + apply startswith_TEMPLATE_inv in E as [r [= -> ->]].
      rewrite splitlines_char in * by done. simpl hd in *. simpl tl in *.
      rewrite !count_marker. simpl map in IH. simpl sum_list in IH.
      rewrite !(count_not_lbrace RBRACE) in IH by done.
      lia.
    + rewrite !count_other by done.
      destruct (splitlines false rest) as [|l ls] eqn:El.
      * apply splitlines_nil_inv in El as ->. simpl. by rewrite count_nil.
      * simpl in *. lia.
Qed.

(** ** The loop of [multipylinef] *)

Lemma scan_lines_skip line lines args fargs k :
  contains TEMPLATE line = false ->
  scan_lines (line :: lines) args fargs k = scan_lines lines args fargs k.
Proof. intros H. simpl. by rewrite H. Qed.

Lemma scan_lines_many line lines args fargs k :
  (1 < count line TEMPLATE)%nat ->
  scan_lines (line :: lines) args fargs k = Raise ValueError.
Proof.
  intros H. simpl. rewrite contains_count.
  destruct (Nat.eqb_spec (count line TEMPLATE) 0); [lia|]. simpl.
  by destruct (Nat.ltb_spec 1 (count line TEMPLATE)); [|lia].
Qed.

Lemma scan_lines_one line lines args fargs k :
  contains TEMPLATE line = true -> (count line TEMPLATE <= 1)%nat ->
  scan_lines (line :: lines) args fargs k =
    (argument ← getitem args k;
     fargs' ← setitem fargs k (formatted_argument line argument);
     scan_lines lines args fargs' (S k)).
Proof.
  intros H1 H2. simpl. rewrite H1. simpl.
  by destruct (Nat.ltb_spec 1 (count line TEMPLATE)); [lia|].
Qed.

Lemma bind_Return {A B} (f : A -> outcome B) a : Return a ≫= f = f a.
Proof. reflexivity. Qed.

Lemma bind_Raise {A B} (f : A -> outcome B) e : Raise e ≫= f = Raise e.
Proof. reflexivity. Qed.

Lemma getitem_lt (l : list (list N)) i :
  (i < length l)%nat -> exists x, l !! i = Some x /\ getitem l i = Return x.
Proof.
  intros H. destruct (lookup_lt_is_Some_2 l i H) as [x Hx].
  exists x. unfold getitem. by rewrite Hx.
Qed.

Lemma getitem_ge (l : list (list N)) i :
  (length l <= i)%nat -> getitem l i = Raise IndexError.
Proof. intros H. unfold getitem. by rewrite lookup_ge_None_2. Qed.

Lemma setitem_lt (l : list (list N)) i v :
  (i < length l)%nat -> setitem l i v = Return (<[i:=v]> l).
Proof. intros H. unfold setitem. by destruct (decide (i < length l)%nat). Qed.

(** The loop runs to its end when no line has two markers and the arguments
    suffice: it stores one value for each line with a marker, in order, and
    leaves the other entries as they were. *)
Lemma scan_lines_ok lines args :
  single_markers lines ->
  forall fargs k,
    length fargs = length args ->
    (k + length (List.filter (contains TEMPLATE) lines) <= length args)%nat ->
    scan_lines lines args fargs k =
      Return (take k fargs
              ++ zip_with formatted_argument
                   (List.filter (contains TEMPLATE) lines) (drop k args)
              ++ drop (k + length (List.filter (contains TEMPLATE) lines)) fargs).
Proof.
  induction 1 as [|line lines Hone _ IH]; intros fargs k Hlen Hk.
  - simpl. by rewrite Nat.add_0_r, take_drop.
  - simpl List.filter in *. destruct (contains TEMPLATE line) eqn:Ec.
    + simpl length in Hk. rewrite scan_lines_one by done.
      destruct (getitem_lt args k) as (a & Ha & ->); [lia|].
      rewrite bind_Return, setitem_lt, bind_Return by lia.
      rewrite IH by (rewrite ?length_insert; lia).
      f_equal. rewrite (drop_S args a k) by done. simpl zip_with.
      assert (Hf : (k < length fargs)%nat) by lia.
      rewrite (take_S_r (<[k:=_]> fargs) k (formatted_argument line a))
        by by apply list_lookup_insert_eq.
      rewrite take_insert_ge by lia.
      rewrite drop_insert_lt by lia.
      rewrite <- app_assoc. simpl. by rewrite Nat.add_succ_r.
    + rewrite scan_lines_skip by done. by apply IH.
Qed.

(** It stops with [IndexError] at the line whose marker has no argument. *)
Lemma scan_lines_short lines args :
  single_markers lines ->
  forall fargs k,
    length fargs = length args -> (k <= length args)%nat ->
    (length args < k + length (List.filter (contains TEMPLATE) lines))%nat ->
    scan_lines lines args fargs k = Raise IndexError.
Proof.
  induction 1 as [|line lines Hone _ IH]; intros fargs k Hlen Hk Hshort.
  - simpl in Hshort. lia.
  - simpl List.filter in *. destruct (contains TEMPLATE line) eqn:Ec.
    + simpl length in Hshort. rewrite scan_lines_one by done.
      destruct (decide (k < length args)%nat) as [Hlt | Hge].
      * destruct (getitem_lt args k) as (a & Ha & ->); [lia|].
        rewrite bind_Return, setitem_lt, bind_Return by lia.
        apply IH; rewrite ?length_insert; lia.
      * by rewrite getitem_ge by lia.
    + rewrite scan_lines_skip by done. by apply IH.
Qed.

(** It stops at the first line with two markers, unless it has stopped
    before for want of an argument. *)
Lemma scan_lines_invalid pre line post args :
  single_markers pre -> (1 < count line TEMPLATE)%nat ->
  forall fargs k,
    length fargs = length args -> (k <= length args)%nat ->
    scan_lines (pre ++ line :: post) args fargs k =
      if decide (k + length (List.filter (contains TEMPLATE) pre)
                 <= length args)%nat
      then Raise ValueError else Raise IndexError.
Proof.
  intros Hpre Hline.
  induction Hpre as [|l pre Hone _ IH]; intros fargs k Hlen Hk.
  - simpl app. rewrite scan_lines_many by done. simpl.
    by destruct (decide _); [|lia].
  - rewrite <- app_comm_cons. simpl List.filter.
    destruct (contains TEMPLATE l) eqn:Ec.
    + simpl length. rewrite scan_lines_one by done.
      destruct (decide (k < length args)%nat) as [Hlt | Hge].
      * destruct (getitem_lt args k) as (a & Ha & ->); [lia|].
        rewrite bind_Return, setitem_lt, bind_Return by lia.
        rewrite IH by (rewrite ?length_insert; lia).
        repeat destruct (decide _); done || lia.
      * rewrite getitem_ge, bind_Raise by lia.
        by destruct (decide _); [lia|].
    + rewrite scan_lines_skip by done. by apply IH.
Qed.

Lemma marker_lines_count lines :
  single_markers lines ->
  sum_list (map (fun l => count l TEMPLATE) lines) =
    length (List.filter (contains TEMPLATE) lines).
Proof.
  induction 1 as [|l lines Hone _ IH]; [done|].
  simpl. rewrite contains_count, IH.
  destruct (Nat.eqb_spec (count l TEMPLATE) 0); simpl; lia.
Qed.

Lemma count_marker_lines s :
  single_markers (splitlines false s) ->
  count s TEMPLATE = length (marker_lines s).
Proof.
  intros H. rewrite count_splitlines. by apply marker_lines_count.
Qed.

(** ** [format] on templates whose braces are those of the markers *)

Lemma list_ind2 (P : list N -> Prop) :
  P [] -> (forall c, P [c]) ->
  (forall c d r, P r -> P (d :: r) -> P (c :: d :: r)) ->
  forall s, P s.
Proof.
  intros Hnil Hone Hstep s.
  assert (H : P s /\ forall c, P (c :: s)); [|tauto].
  induction s as [|d r [IH1 IH2]]; [by split|].
  split; [apply IH2|]. intros c. by apply Hstep.
Qed.

Lemma replace_markers_nil s : replace_markers s [] = s.
Proof. induction s as [|c [|d r] IH]; simpl in *; by f_equal. Qed.

Lemma replace_markers_other c rest args :
  startswith (c :: rest) TEMPLATE = false ->
  replace_markers (c :: rest) args = c :: replace_markers rest args.
Proof.
  rewrite startswith_TEMPLATE. intros H. simpl.
  destruct rest as [|d r]; [done|]. destruct args; [done|]. by rewrite H.
Qed.

Lemma replace_markers_marker r a args :
  replace_markers (LBRACE :: RBRACE :: r) (a :: args) =
    a ++ replace_markers r args.
Proof. reflexivity. Qed.

Lemma fmap_Return {A B} (f : A -> B) a : f <$> Return a = Return (f a).
Proof. reflexivity. Qed.

Lemma format_from_other c rest args k :
  c <> LBRACE -> c <> RBRACE ->
  format_from (c :: rest) args k = cons c <$> format_from rest args k.
Proof.
  intros H1 H2. simpl.
  destruct (N.eqb_spec c LBRACE); [done|]. by destruct (N.eqb_spec c RBRACE).
Qed.

Lemma format_from_marker r args k :
  format_from (LBRACE :: RBRACE :: r) args k =
    (a ← getitem args k; app a <$> format_from r args (S k)).
Proof. reflexivity. Qed.

Lemma plain_other c rest :
  c <> LBRACE -> c <> RBRACE -> plain (c :: rest) = plain rest.
Proof.
  intros H1 H2. simpl.
  destruct (N.eqb_spec c LBRACE); [done|]. by destruct (N.eqb_spec c RBRACE).
Qed.

Lemma plain_cons_inv c rest :
  plain (c :: rest) = true ->
  (c = LBRACE /\ exists r, rest = RBRACE :: r /\ plain r = true)
  \/ (c <> LBRACE /\ c <> RBRACE /\ plain rest = true).
Proof.
  simpl. destruct (N.eqb_spec c LBRACE) as [-> | H1].
  - destruct rest as [|d r]; [done|].
    intros [->%N.eqb_eq H]%andb_true_iff. left. eauto.
  - destruct (N.eqb_spec c RBRACE); [done|]. by right.
Qed.

Lemma format_plain s :
  plain s = true ->
  forall args k,
    (k + count s TEMPLATE <= length args)%nat ->
    format_from s args k =
      Return (replace_markers s (take (count s TEMPLATE) (drop k args))).
Proof.
  induction s as [| c | c d r IH1 IH2] using list_ind2; intros Hp args k Hk.
  - done.
  - apply plain_cons_inv in Hp as [(_ & r & ? & _) | (H1 & H2 & _)]; [done|].
    by rewrite format_from_other.
  - apply plain_cons_inv in Hp as [(-> & r' & [= -> <-] & Hp) | (H1 & H2 & Hp)].
    + rewrite count_marker in *. rewrite format_from_marker.
      destruct (getitem_lt args k) as (a & Ha & ->); [lia|].
      rewrite bind_Return, IH1, fmap_Return by (done || lia).
      by rewrite (drop_S args a k).
    + rewrite count_not_lbrace in * by done.
      rewrite format_from_other, IH2, fmap_Return by done.
      rewrite (replace_markers_other c); [done|].
      rewrite startswith_TEMPLATE. by destruct (N.eqb_spec c LBRACE).
Qed.

(** The call on such a template, when no line has two markers and the
    arguments suffice: the markers are replaced, in order, by the values the
    loop has stored, and the result is dedented and trimmed. *)
Lemma multipylinef_plain s args :
  plain s = true ->
  single_markers (splitlines false s) ->
  (count s TEMPLATE <= length args)%nat ->
  multipylinef s args =
    Return (multipyline
              (replace_markers s
                 (zip_with formatted_argument (marker_lines s) args))).
Proof.
  intros Hp Hs Hn. pose proof (count_marker_lines s Hs) as Hm.
  unfold multipylinef, marker_lines in *.
  rewrite scan_lines_ok by (rewrite ?length_replicate; done || lia).
  rewrite bind_Return. unfold format.
  rewrite format_plain by (rewrite ?length_app, ?length_zip_with,
                             ?length_drop, ?length_replicate; done || lia).
  rewrite bind_Return, take_0, app_nil_l, !drop_0.
  rewrite take_app_length'; [done|].
  rewrite length_zip_with. lia.
Qed.

(** ** [dedent] of one line *)

Lemma no_linebreak_no_newline l : no_linebreak l -> no_newline l.
Proof.
  induction l as [|c l IH]; [constructor|].
  intros [Hc Hl]%no_linebreak_cons. constructor; [|by apply IH].
  by intros ->.
Qed.

Lemma leading_whitespace_app ws c r :
  forallb is_space_or_tab ws = true -> is_space_or_tab c = false ->
  leading_whitespace (ws ++ c :: r) = Some ws.
Proof.
  intros Hws Hc. induction ws as [|d ws IH]; simpl in *.
  - by rewrite Hc.
  - apply andb_true_iff in Hws as [-> Hws]. by rewrite IH.
Qed.

Lemma leading_whitespace_Some_inv l ws :
  leading_whitespace l = Some ws ->
  exists c r, l = ws ++ c :: r /\ is_space_or_tab c = false.
Proof.
  revert ws. induction l as [|d l IH]; intros ws; simpl; [done|].
  destruct (is_space_or_tab d) eqn:E.
  - destruct (leading_whitespace l) as [ws'|]; simpl; [|done].
    intros [= <-]. destruct (IH ws' eq_refl) as (c & r & -> & Hc).
    by exists c, r.
  - intros [= <-]. by exists d, l.
Qed.

Lemma leading_whitespace_None l :
  leading_whitespace l = None -> forallb is_space_or_tab l = true.
Proof.
  induction l as [|d l IH]; simpl; [done|].
  destruct (is_space_or_tab d); [|done].
  destruct (leading_whitespace l); [done|]. auto.
Qed.

(** A line that is not blank loses its leading spaces and tabs. *)
Lemma dedent_line ws c r :
  no_newline (ws ++ c :: r) ->
  forallb is_space_or_tab ws = true -> is_space_or_tab c = false ->
  dedent (ws ++ c :: r) = c :: r.
Proof.
  intros Hl Hws Hc. unfold dedent.
  assert (Hb : sub_whitespace_only (ws ++ c :: r) = ws ++ c :: r).
  { unfold sub_whitespace_only. rewrite split_nl_no_newline by done. simpl.
    unfold blank_whitespace_only.
    by rewrite forallb_app, Hws; simpl; rewrite Hc. }
  rewrite Hb. unfold findall_leading_whitespace, sub_margin.
  rewrite split_nl_no_newline by done. simpl.
  rewrite leading_whitespace_app by done. simpl.
  destruct ws as [|d ws]; [done|].
  unfold remove_margin. rewrite startswith_app. by rewrite drop_app_length.
Qed.

(** In a line with one marker, [dedent] brings the marker to the front
    exactly when spaces and tabs only stand before it. *)
Lemma dedent_line_marker pre post :
  no_newline (pre ++ TEMPLATE ++ post) ->
  count (pre ++ TEMPLATE ++ post) TEMPLATE = 1%nat ->
  startswith (dedent (pre ++ TEMPLATE ++ post)) TEMPLATE =
    forallb is_space_or_tab pre.
Proof.
  intros Hl Hone.
  destruct (forallb is_space_or_tab pre) eqn:Hpre.
  - rewrite TEMPLATE_eq in *. simpl app in *. by rewrite dedent_line.
  - destruct (leading_whitespace (pre ++ TEMPLATE ++ post)) as [ws|] eqn:E.
    + pose proof (leading_whitespace_space_tab _ _ E) as Hws.
      apply leading_whitespace_Some_inv in E as (c & r & E & Hc).
      rewrite E in Hl |- *. rewrite dedent_line by done.
      destruct (startswith (c :: r) TEMPLATE) eqn:Es; [|done].
      exfalso. apply startswith_spec in Es.
      pose proof (find_unique_marker pre post Hone) as H1.
      rewrite E, Es in Hone, H1.
      rewrite (find_unique_marker ws _ Hone) in H1. injection H1 as H1.
      rewrite Es in E. apply app_inj_1 in E as [-> _]; [|done]. congruence.
    + apply leading_whitespace_None in E.
      rewrite TEMPLATE_eq, !forallb_app in E. simpl in E.
      by rewrite andb_false_r in E.
Qed.

Lemma formatted_argument_spec pre post argument :
  count (pre ++ TEMPLATE ++ post) TEMPLATE = 1%nat ->
  formatted_argument (pre ++ TEMPLATE ++ post) argument =
    if (1 <? length (splitlines false argument))%nat
       && startswith (dedent (pre ++ TEMPLATE ++ post)) TEMPLATE
    then multipyline_inner argument pre
    else argument.
Proof.
  intros H. unfold formatted_argument.
  rewrite (slice_to_find _ _ (length pre)) by by apply find_unique_marker.
  by rewrite take_app_length.
Qed.

(** ** Counting lines with a marker *)

Lemma marker_lines_le lines :
  (length (List.filter (contains TEMPLATE) lines)
   <= sum_list (map (fun l => count l TEMPLATE) lines))%nat.
Proof.
  induction lines as [|l lines IH]; [done|].
  simpl. rewrite contains_count.
  destruct (Nat.eqb_spec (count l TEMPLATE) 0); simpl; lia.
Qed.

Lemma single_markers_of_count lines :
  sum_list (map (fun l => count l TEMPLATE) lines) =
    length (List.filter (contains TEMPLATE) lines) ->
  single_markers lines.
Proof.
  induction lines as [|l lines IH]; [constructor|].
  simpl. rewrite contains_count. pose proof (marker_lines_le lines).
  destruct (Nat.eqb_spec (count l TEMPLATE) 0); simpl; intros H'.
  - constructor; [lia|]. apply IH. lia.
  - constructor; [lia|]. apply IH. lia.
Qed.

Lemma marker_lines_nil s : count s TEMPLATE = 0%nat -> marker_lines s = [].
Proof.
  intros H. pose proof (marker_lines_le (splitlines false s)) as Hle.
  rewrite <- count_splitlines, H in Hle. unfold marker_lines.
  destruct (List.filter _ _); [done | simpl in Hle; lia].
Qed.

(** ** Templates without a brace *)

Lemma no_brace_inv c : no_brace c = true -> c <> LBRACE /\ c <> RBRACE.
Proof.
  unfold no_brace. rewrite andb_true_iff, !negb_true_iff, !N.eqb_neq. tauto.
Qed.

Lemma no_brace_plain s : forallb no_brace s = true -> plain s = true.
Proof.
  induction s as [|c s IH]; [done|]. simpl forallb.
  intros [[H1 H2]%no_brace_inv Hs]%andb_true_iff.
  rewrite plain_other by done. auto.
Qed.

Lemma no_brace_count s : forallb no_brace s = true -> count s TEMPLATE = 0%nat.
Proof.
  induction s as [|c s IH]; [done|]. simpl forallb.
  intros [[H1 H2]%no_brace_inv Hs]%andb_true_iff.
  rewrite count_not_lbrace by done. auto.
Qed.

(** * The claims *)

(** ** C1: which arguments are reformatted *)

(** C1.  When the loop of [multipylinef] runs to its end (no line has two
    markers and every line with a marker has an argument), the call returns
    [multipyline] of the template formatted with the values the loop stored,
    and the value stored for a line [pre ++ "{}" ++ post] with one marker is
    [multipyline_inner argument pre] when the argument has more than one line
    and the dedented line starts with the marker, which is the case exactly
    when [pre] is made of spaces and tabs; it is the argument itself
    otherwise. *)
Theorem multipylinef_formatted_arguments s args :
  single_markers (splitlines false s) ->
  (length (marker_lines s) <= length args)%nat ->
  exists formatted_args,
    scan_lines (splitlines false s) args (replicate (length args) []) 0
      = Return formatted_args
    /\ multipylinef s args = (multipyline <$> format s formatted_args)
    /\ forall i line argument pre post,
         marker_lines s !! i = Some line ->
         args !! i = Some argument ->
         line = pre ++ TEMPLATE ++ post ->
         count line TEMPLATE = 1%nat
         /\ startswith (dedent line) TEMPLATE = forallb is_space_or_tab pre
         /\ formatted_args !! i =
              Some (if (1 <? length (splitlines false argument))%nat
                       && startswith (dedent line) TEMPLATE
                    then multipyline_inner argument pre
                    else argument).
Proof.
  intros Hs Hn. unfold marker_lines in *.
  eexists. split; [|split].
  - apply scan_lines_ok; [done | by rewrite length_replicate | simpl; lia].
  - unfold multipylinef.
    rewrite scan_lines_ok by (rewrite ?length_replicate; done || lia).
    rewrite bind_Return. by destruct (format s _).
  - intros i line argument pre post Hline Harg ->.
    assert (Hin : In (pre ++ TEMPLATE ++ post)
                     (List.filter (contains TEMPLATE) (splitlines false s))).
    { apply list_elem_of_In. by eapply list_elem_of_lookup_2. }
    apply filter_In in Hin as [Hin Hc].
    assert (Hone : count (pre ++ TEMPLATE ++ post) TEMPLATE = 1%nat).
    { apply list_elem_of_In in Hin.
      pose proof (proj1 (Forall_forall _ _) Hs _ Hin) as Hle. cbv beta in Hle.
      pose proof (count_app_marker_pos pre post). lia. }
    assert (Hnl : no_newline (pre ++ TEMPLATE ++ post)).
    { apply no_linebreak_no_newline. apply list_elem_of_In in Hin.
      exact (proj1 (Forall_forall _ _) (splitlines_lines_no_linebreak s) _ Hin). }
    split; [done|]. split; [by apply dedent_line_marker|].
    rewrite take_0, app_nil_l, drop_0.
    rewrite lookup_app_l
      by (rewrite length_zip_with; apply lookup_lt_Some in Hline, Harg; lia).
    rewrite lookup_zip_with, Hline. cbn [mbind option_bind].
    rewrite Harg. cbn [mbind option_bind].
    by rewrite formatted_argument_spec.
Qed.

Lemma multipylinef_formatted_arguments_witness :
  single_markers (splitlines false def_fun_template)
  /\ (length (marker_lines def_fun_template) <= length [two_lines])%nat
  /\ exists formatted_args,
       scan_lines (splitlines false def_fun_template) [two_lines]
         (replicate (length [two_lines]) []) 0 = Return formatted_args
       /\ multipylinef def_fun_template [two_lines]
          = (multipyline <$> format def_fun_template formatted_args)
       /\ forall i line argument pre post,
            marker_lines def_fun_template !! i = Some line ->
            [two_lines] !! i = Some argument ->
            line = pre ++ TEMPLATE ++ post ->
            count line TEMPLATE = 1%nat
            /\ startswith (dedent line) TEMPLATE = forallb is_space_or_tab pre
            /\ formatted_args !! i =
                 Some (if (1 <? length (splitlines false argument))%nat
                          && startswith (dedent line) TEMPLATE
                       then multipyline_inner argument pre
                       else argument).
Proof.
  assert (H1 : single_markers (splitlines false def_fun_template)).
  { vm_compute. repeat constructor. }
  assert (H2 : (length (marker_lines def_fun_template)
                <= length [two_lines])%nat).
  { vm_compute. lia. }
  split; [exact H1|]. split; [exact H2|].
  exact (multipylinef_formatted_arguments def_fun_template [two_lines] H1 H2).
Defined.

(** ** C2: the docstring example *)

(** C2.  [multipylinef("    def fun():\n        {}", "a\nb")] returns
    ["def fun():\n    a\n    b"]. *)
Theorem multipylinef_def_fun :
  multipylinef def_fun_template [two_lines]
  = Return (join_nl [lit "def fun():"; lit "    a"; lit "    b"]).
Proof. vm_compute. reflexivity. Qed.

(** ** C3: a line with two markers *)

(** The template [{}] over [{} {}] with no argument: the first line asks for
    an argument that is not there, and the call raises [IndexError] before it
    reaches the second line. *)
Lemma two_markers_IndexError_first :
  ~ two_markers_raise_ValueError (join_nl [lit "{}"; lit "{} {}"]) [].
Proof.
  intros H.
  assert (E : multipylinef (join_nl [lit "{}"; lit "{} {}"]) []
              = Raise IndexError) by (vm_compute; reflexivity).
  rewrite H in E; [discriminate|].
  exists (lit "{} {}"). split; [vm_compute; tauto | vm_compute; lia].
Qed.

(** C3, amended.  When [line] is the first line of the template with more
    than one marker, the call raises [ValueError] if there are at least as
    many arguments as lines with a marker above [line], and [IndexError]
    otherwise. *)
Theorem multipylinef_two_markers s args pre line post :
  splitlines false s = pre ++ line :: post ->
  single_markers pre ->
  (1 < count line TEMPLATE)%nat ->
  multipylinef s args =
    if decide (length (List.filter (contains TEMPLATE) pre) <= length args)%nat
    then Raise ValueError else Raise IndexError.
Proof.
  intros E Hpre Hline. unfold multipylinef. rewrite E.
  rewrite (scan_lines_invalid pre line post args Hpre Hline)
    by (rewrite ?length_replicate; done || lia).
  simpl. by destruct (decide _).
Qed.

Lemma multipylinef_two_markers_witness :
  splitlines false (join_nl [lit "{}"; lit "{} {}"; lit "end"])
    = [lit "{}"] ++ lit "{} {}" :: [lit "end"]
  /\ single_markers [lit "{}"]
  /\ (1 < count (lit "{} {}") TEMPLATE)%nat
  /\ multipylinef (join_nl [lit "{}"; lit "{} {}"; lit "end"]) [lit "X"]
     = Raise ValueError.
Proof.
  assert (H1 : splitlines false (join_nl [lit "{}"; lit "{} {}"; lit "end"])
               = [lit "{}"] ++ lit "{} {}" :: [lit "end"])
    by (vm_compute; reflexivity).
  assert (H2 : single_markers [lit "{}"]) by (vm_compute; repeat constructor).
  assert (H3 : (1 < count (lit "{} {}") TEMPLATE)%nat) by (vm_compute; lia).
  split; [exact H1|]. split; [exact H2|]. split; [exact H3|].
  exact (multipylinef_two_markers _ [lit "X"] _ _ _ H1 H2 H3).
Defined.

(** ** C4: fewer arguments than markers *)

(** C4.  When no line of the template has more than one marker and the
    markers of the template are more than the arguments, the call raises
    [IndexError]. *)
Theorem multipylinef_too_few_arguments s args :
  single_markers (splitlines false s) ->
  (length args < count s TEMPLATE)%nat ->
  multipylinef s args = Raise IndexError.
Proof.
  intros Hs Hn. unfold multipylinef.
  rewrite scan_lines_short; [done | done | | |].
  - by rewrite length_replicate.
  - lia.
  - rewrite count_marker_lines in Hn by done. unfold marker_lines in Hn. lia.
Qed.

Lemma multipylinef_too_few_arguments_witness :
  single_markers (splitlines false (join_nl [lit "{}"; lit "{}"]))
  /\ (length [lit "X"] < count (join_nl [lit "{}"; lit "{}"]) TEMPLATE)%nat
  /\ multipylinef (join_nl [lit "{}"; lit "{}"]) [lit "X"] = Raise IndexError.
Proof.
  assert (H1 : single_markers (splitlines false (join_nl [lit "{}"; lit "{}"])))
    by (vm_compute; repeat constructor).
  assert (H2 : (length [lit "X"]
                < count (join_nl [lit "{}"; lit "{}"]) TEMPLATE)%nat)
    by (vm_compute; lia).
  split; [exact H1|]. split; [exact H2|].
  exact (multipylinef_too_few_arguments _ _ H1 H2).
Defined.

(** ** C5: a template without a marker *)

(** The template [{{] has no marker, and [format] turns the doubled brace
    into one brace: the call returns [{], [multipyline] of the template
    is [{{]. *)
Lemma doubled_brace_not_multipyline :
  count (lit "{{") TEMPLATE = 0%nat
  /\ multipylinef (lit "{{") [] = Return (lit "{")
  /\ multipylinef (lit "{{") [] <> Return (multipyline (lit "{{")).
Proof. split; [|split]; [by vm_compute | by vm_compute |]. by vm_compute. Qed.

(** C5, amended.  For a template with no brace at all, the call returns
    [multipyline] of the template, whatever the arguments. *)
Theorem multipylinef_no_brace s args :
  forallb no_brace s = true ->
  multipylinef s args = Return (multipyline s).
Proof.
  intros H. pose proof (no_brace_count s H) as Hc.
  rewrite multipylinef_plain.
  - by rewrite (marker_lines_nil s Hc), replace_markers_nil.
  - by apply no_brace_plain.
  - apply single_markers_of_count. rewrite <- count_splitlines, Hc.
    fold (marker_lines s). by rewrite marker_lines_nil.
  - lia.
Qed.

Lemma multipylinef_no_brace_witness :
  forallb no_brace (join_nl [lit "  line1"; lit "    line2"]) = true
  /\ multipylinef (join_nl [lit "  line1"; lit "    line2"]) [lit "X"]
     = Return (multipyline (join_nl [lit "  line1"; lit "    line2"])).
Proof.
  assert (H : forallb no_brace (join_nl [lit "  line1"; lit "    line2"])
              = true) by (vm_compute; reflexivity).
  split; [exact H|].
  exact (multipylinef_no_brace _ [lit "X"] H).
Defined.

(** ** C6: the prefix on the lines of [multipyline_inner] *)

(** With the prefix ["\n"] the result of [a] over [b] is ["a\n\nb"]: its
    third line [b] does not begin with the prefix.  With the prefix ["> "]
    the result is ["> a\n> b"]: the first line keeps the prefix. *)
Lemma prefix_with_newline_or_text :
  ~ later_lines_prefixed two_lines [LF]
  /\ ~ first_line_unprefixed two_lines (lit "> ").
Proof.
  split.
  - unfold later_lines_prefixed.
    assert (E : tl (splitlines false (multipyline_inner two_lines [LF]))
                = [[]; lit "b"]) by (vm_compute; reflexivity).
    rewrite E. intros H. inversion H as [|? ? _ H']; subst.
    inversion H' as [|? ? Hb _]; subst.
    specialize (Hb eq_refl). vm_compute in Hb. discriminate.
  - unfold first_line_unprefixed. vm_compute. discriminate.
Qed.

(** C6, amended.  For a prefix [p] with no line boundary in it, every line
    of [multipyline_inner s p] but the first begins with [p], blank or not;
    the lines are those of [multipyline s], the first after what [lstrip]
    leaves of [p] and each other after [p]; so the first line has lost the
    prefix when the prefix is whitespace. *)
Theorem multipyline_inner_prefix s p :
  no_linebreak p ->
  Forall (fun l => startswith l p = true)
         (tl (splitlines false (multipyline_inner s p)))
  /\ splitlines false (multipyline_inner s p)
     = match splitlines false (multipyline s) with
       | [] => []
       | l :: ls => (lstrip p ++ l) :: map (app p) ls
       end
  /\ (forallb isspace p = true -> first_line_unprefixed s p).
Proof.
  intros Hp. pose proof (multipyline_inner_lines s p Hp) as E.
  split; [|split].
  - rewrite E. destruct (splitlines false (multipyline s)) as [|l ls]; [done|].
    simpl. apply Forall_map, Forall_forall. intros x _. apply startswith_app.
  - exact E.
  - intros Hw. unfold first_line_unprefixed. rewrite E.
    destruct (splitlines false (multipyline s)) as [|l ls]; [done|].
    simpl. by rewrite lstrip_whitespace.
Qed.

Lemma multipyline_inner_prefix_witness :
  no_linebreak (lit "    ")
  /\ Forall (fun l => startswith l (lit "    ") = true)
            (tl (splitlines false (multipyline_inner two_lines (lit "    "))))
  /\ splitlines false (multipyline_inner two_lines (lit "    "))
     = match splitlines false (multipyline two_lines) with
       | [] => []
       | l :: ls => (lstrip (lit "    ") ++ l) :: map (app (lit "    ")) ls
       end
  /\ (forallb isspace (lit "    ") = true ->
      first_line_unprefixed two_lines (lit "    ")).
Proof.
  assert (H : no_linebreak (lit "    ")) by (vm_compute; reflexivity).
  split; [exact H|].
  exact (multipyline_inner_prefix two_lines (lit "    ") H).
Defined.

(** ** C7: [multipyline] is idempotent *)

(** C7.  [multipyline (multipyline s) = multipyline s] for every [s]. *)
Theorem multipyline_idempotent s :
  multipyline (multipyline s) = multipyline s.
Proof.
  unfold multipyline.
  rewrite (dedent_fixed (strip (dedent s))).
  - apply strip_idemp.
  - apply strip_clean, dedent_clean.
  - apply lstrip_strip.
Qed.

(** ** C8: whitespace *)

(** C8.  For [s] empty or made of whitespace, [multipyline s] is empty and
    so is [multipyline_inner s p] for every prefix [p]. *)
Theorem multipyline_whitespace s p :
  forallb isspace s = true ->
  multipyline s = [] /\ multipyline_inner s p = [].
Proof.
  intros H.
  assert (E : multipyline s = []).
  { unfold multipyline. by apply strip_whitespace, dedent_whitespace. }
  split; [done|]. unfold multipyline_inner. by rewrite E.
Qed.

Lemma multipyline_whitespace_witness :
  forallb isspace (join_nl [lit "   "; [TAB; CR]; lit " "]) = true
  /\ multipyline (join_nl [lit "   "; [TAB; CR]; lit " "]) = []
  /\ multipyline_inner (join_nl [lit "   "; [TAB; CR]; lit " "]) (lit "> ") = [].
Proof.
  assert (H : forallb isspace (join_nl [lit "   "; [TAB; CR]; lit " "]) = true)
    by (vm_compute; reflexivity).
  split; [exact H|].
  exact (multipyline_whitespace _ (lit "> ") H).
Defined.

(** ** C9: the arguments go to the markers in order *)

(** The template [{{}}] over [{}]: [format] reads the first line as two
    escaped braces, and the marker of the second line takes the first
    argument.  The template [{}] over [{}] over [}]: [format] rejects the
    lone brace and nothing is replaced. *)
Lemma escaped_braces_shift_arguments :
  ~ positional (join_nl [lit "{{}}"; lit "{}"]) (lit "X") (lit "Y")
  /\ multipylinef (join_nl [lit "{{}}"; lit "{}"]) [lit "X"; lit "Y"]
     = Return (join_nl [lit "{}"; lit "X"])
  /\ ~ positional (join_nl [lit "{}"; lit "{}"; lit "}"]) (lit "X") (lit "Y")
  /\ multipylinef (join_nl [lit "{}"; lit "{}"; lit "}"]) [lit "X"; lit "Y"]
     = Raise ValueError.
Proof.
  split; [|split; [by vm_compute | split; [|by vm_compute]]].
  - intros H. specialize (H (lit "{{}}") (lit "{}")).
    vm_compute in H. specialize (H eq_refl eq_refl). discriminate.
  - intros H. specialize (H (lit "{}") (lit "{}")).
    vm_compute in H. specialize (H eq_refl eq_refl). discriminate.
Qed.

(** C9, amended.  In a template with two markers on two lines [l1] and [l2]
    and no brace other than those of the two markers, the first marker is
    replaced by the value of the first argument and the second by that of
    the second, whatever the arguments are. *)
Theorem multipylinef_positional s a1 a2 l1 l2 :
  plain s = true ->
  count s TEMPLATE = 2%nat ->
  marker_lines s = [l1; l2] ->
  multipylinef s [a1; a2]
  = Return (multipyline
              (replace_markers s [formatted_argument l1 a1;
                                  formatted_argument l2 a2])).
Proof.
  intros Hp Hc Hm. rewrite multipylinef_plain.
  - by rewrite Hm.
  - done.
  - apply single_markers_of_count. rewrite <- count_splitlines, Hc.
    fold (marker_lines s). by rewrite Hm.
  - simpl. lia.
Qed.

Lemma multipylinef_positional_witness :
  plain (join_nl [lit "x = {}"; lit "  {}"]) = true
  /\ count (join_nl [lit "x = {}"; lit "  {}"]) TEMPLATE = 2%nat
  /\ marker_lines (join_nl [lit "x = {}"; lit "  {}"])
     = [lit "x = {}"; lit "  {}"]
  /\ multipylinef (join_nl [lit "x = {}"; lit "  {}"]) [lit "{}"; two_lines]
     = Return (multipyline
                 (replace_markers (join_nl [lit "x = {}"; lit "  {}"])
                    [formatted_argument (lit "x = {}") (lit "{}");
                     formatted_argument (lit "  {}") two_lines])).
Proof.
  assert (H1 : plain (join_nl [lit "x = {}"; lit "  {}"]) = true)
    by (vm_compute; reflexivity).
  assert (H2 : count (join_nl [lit "x = {}"; lit "  {}"]) TEMPLATE = 2%nat)
    by (vm_compute; reflexivity).
  assert (H3 : marker_lines (join_nl [lit "x = {}"; lit "  {}"])
               = [lit "x = {}"; lit "  {}"]) by (vm_compute; reflexivity).
  split; [exact H1|]. split; [exact H2|]. split; [exact H3|].
  exact (multipylinef_positional _ (lit "{}") two_lines _ _ H1 H2 H3).
Defined.

(** ** C10: more arguments than markers *)

(** The template [}] has no marker, and [format] rejects its lone brace:
    the call raises [ValueError]. *)
Lemma lone_brace_raises :
  ~ spare_arguments_ignored (lit "}") [lit "a"]
  /\ multipylinef (lit "}") [lit "a"] = Raise ValueError.
Proof.
  split; [|by vm_compute].
  intros H. destruct H as (r & H & _).
  - vm_compute. repeat constructor.
  - vm_compute. lia.
  - vm_compute in H. discriminate.
Qed.

(** C10, amended.  For a template with no brace other than those of its
    markers, no line of which has more than one marker, and more arguments
    than markers, the call returns, and returns what it returns on the first
    [k] arguments, [k] the number of markers. *)
Theorem multipylinef_spare_arguments s args :
  plain s = true ->
  single_markers (splitlines false s) ->
  (count s TEMPLATE < length args)%nat ->
  exists r, multipylinef s args = Return r
            /\ multipylinef s (take (count s TEMPLATE) args) = Return r.
Proof.
  intros Hp Hs Hn. eexists. split.
  - apply multipylinef_plain; [done | done | lia].
  - rewrite multipylinef_plain by (rewrite ?length_take; done || lia).
    rewrite (count_marker_lines s Hs). by rewrite zip_with_take_r.
Qed.

Lemma multipylinef_spare_arguments_witness :
  plain def_fun_template = true
  /\ single_markers (splitlines false def_fun_template)
  /\ (count def_fun_template TEMPLATE < length [two_lines; lit "spare"])%nat
  /\ exists r,
       multipylinef def_fun_template [two_lines; lit "spare"] = Return r
       /\ multipylinef def_fun_template
            (take (count def_fun_template TEMPLATE) [two_lines; lit "spare"])
          = Return r.
Proof.
  assert (H1 : plain def_fun_template = true) by (vm_compute; reflexivity).
  assert (H2 : single_markers (splitlines false def_fun_template))
    by (vm_compute; repeat constructor).
  assert (H3 : (count def_fun_template TEMPLATE
                < length [two_lines; lit "spare"])%nat) by (vm_compute; lia).
  split; [exact H1|]. split; [exact H2|]. split; [exact H3|].
  exact (multipylinef_spare_arguments _ _ H1 H2 H3).
Defined.

(** * Further properties of the three functions *)

(** ** What is returned is trimmed *)

Lemma strip_trimmed s : trimmed (strip s).
Proof.
  split; intros c Hc.
  - destruct (lstrip_fixed_inv _ (lstrip_strip s)) as [E | (d & r & E & Hd)];
      rewrite E in Hc; [done|]. by injection Hc as <-.
  - destruct (rstrip_fixed_last _ (rstrip_strip s)) as (e & He & Hs).
    + intros E. by rewrite E in Hc.
    + congruence.
Qed.

Lemma trimmed_fixed r : trimmed r -> lstrip r = r /\ rstrip r = r.
Proof.
  intros [Hh Hl]. split.
  - destruct r as [|c r]; [done|]. simpl. by rewrite (Hh c eq_refl).
  - destruct (last r) as [e|] eqn:E.
    + by apply rstrip_last with e; [|apply Hl].
    + apply last_None in E as ->. done.
Qed.

Lemma fixed_trimmed r : lstrip r = r -> rstrip r = r -> trimmed r.
Proof. intros H1 H2. rewrite <- (strip_fixed r H1 H2). apply strip_trimmed. Qed.

Lemma multipylinef_Return_inv s args r :
  multipylinef s args = Return r -> exists formatted, r = multipyline formatted.
Proof.
  unfold multipylinef. destruct (scan_lines _ _ _ _) as [fargs | |]; try done.
  rewrite bind_Return. destruct (format s fargs) as [f | |]; try done.
  rewrite bind_Return. intros [= <-]. eauto.
Qed.

Lemma multipyline_fixed_of_multipyline s :
  multipyline (multipyline s) = multipyline s.
Proof.
  unfold multipyline. rewrite (dedent_fixed (strip (dedent s))).
  - apply strip_idemp.
  - apply strip_clean, dedent_clean.
  - apply lstrip_strip.
Qed.

(** X1.  [multipyline] and [multipyline_inner] return a text that neither
    begins nor ends with a whitespace character, whatever the input and the
    prefix. *)
Theorem multipyline_trimmed s p :
  trimmed (multipyline s) /\ trimmed (multipyline_inner s p).
Proof. split; apply strip_trimmed. Qed.

(** X2.  What [multipylinef] returns neither begins nor ends with
    whitespace, and [multipyline] leaves it as it is. *)
Theorem multipylinef_result_trimmed s args r :
  multipylinef s args = Return r ->
  trimmed r /\ multipyline r = r.
Proof.
  intros [formatted ->]%multipylinef_Return_inv. split.
  - apply strip_trimmed.
  - apply multipyline_fixed_of_multipyline.
Qed.

Lemma multipylinef_result_trimmed_witness :
  multipylinef def_fun_template [two_lines]
  = Return (join_nl [lit "def fun():"; lit "    a"; lit "    b"])
  /\ trimmed (join_nl [lit "def fun():"; lit "    a"; lit "    b"])
  /\ multipyline (join_nl [lit "def fun():"; lit "    a"; lit "    b"])
     = join_nl [lit "def fun():"; lit "    a"; lit "    b"].
Proof.
  assert (H : multipylinef def_fun_template [two_lines]
              = Return (join_nl [lit "def fun():"; lit "    a"; lit "    b"]))
    by (vm_compute; reflexivity).
  split; [exact H|].
  exact (multipylinef_result_trimmed _ _ _ H).
Defined.

(** ** Only whitespace is removed *)

Lemma visible_app a b : visible (a ++ b) = visible a ++ visible b.
Proof. apply List.filter_app. Qed.

Lemma visible_cons c s :
  visible (c :: s) = if isspace c then visible s else c :: visible s.
Proof. unfold visible. simpl. by destruct (isspace c). Qed.

Lemma visible_whitespace s : forallb isspace s = true -> visible s = [].
Proof.
  induction s as [|c s IH]; [done|]. simpl forallb.
  intros [Hc H]%andb_true_iff. rewrite visible_cons, Hc. by apply IH.
Qed.

Lemma visible_nil_inv s : visible s = [] -> forallb isspace s = true.
Proof.
  induction s as [|c s IH]; [done|]. rewrite visible_cons. simpl forallb.
  destruct (isspace c); simpl; [apply IH | done].
Qed.

Lemma visible_space_tab s : forallb is_space_or_tab s = true -> visible s = [].
Proof.
  intros H. apply visible_whitespace, forallb_Forall.
  apply forallb_Forall in H. eapply Forall_impl; [exact H|].
  apply space_or_tab_isspace.
Qed.

Lemma visible_lstrip s : visible (lstrip s) = visible s.
Proof.
  induction s as [|c s IH]; [done|]. simpl lstrip. rewrite (visible_cons c s).
  destruct (isspace c) eqn:E; [exact IH|]. by rewrite visible_cons, E.
Qed.

Lemma visible_reverse s : visible (reverse s) = reverse (visible s).
Proof.
  induction s as [|c s IH]; [done|].
  rewrite reverse_cons, visible_app, IH, !visible_cons.
  destruct (isspace c).
  - by rewrite app_nil_r.
  - by rewrite reverse_cons.
Qed.

Lemma visible_strip s : visible (strip s) = visible s.
Proof.
  unfold strip, rstrip.
  by rewrite visible_reverse, visible_lstrip, visible_reverse,
       reverse_involutive, visible_lstrip.
Qed.

Lemma visible_join_nl ls : visible (join_nl ls) = concat (map visible ls).
Proof.
  induction ls as [|l [|l' ls] IH].
  - done.
  - simpl. by rewrite app_nil_r.
  - rewrite join_nl_cons, visible_app. simpl map. simpl concat.
    f_equal. exact IH.
Qed.

Lemma visible_join_map (f : list N -> list N) s :
  (forall l, visible (f l) = visible l) ->
  visible (join_nl (map f (split_nl s))) = visible s.
Proof.
  intros Hf. rewrite <- (join_split_nl s) at 2. rewrite !visible_join_nl.
  f_equal. rewrite map_map. apply map_ext. exact Hf.
Qed.

Lemma visible_blank l : visible (blank_whitespace_only l) = visible l.
Proof.
  unfold blank_whitespace_only.
  destruct (forallb is_space_or_tab l) eqn:E; [|done].
  by rewrite (visible_space_tab l).
Qed.

Lemma visible_remove_margin m l :
  forallb is_space_or_tab m = true ->
  visible (remove_margin m l) = visible l.
Proof.
  intros Hm. unfold remove_margin. destruct (startswith l m) eqn:E; [|done].
  apply startswith_spec in E. rewrite E at 2.
  by rewrite visible_app, (visible_space_tab m).
Qed.

Lemma visible_dedent s : visible (dedent s) = visible s.
Proof.
  unfold dedent.
  assert (Ht : visible (sub_whitespace_only s) = visible s)
    by apply visible_join_map, visible_blank.
  destruct (foldl _ _ _) as [[|c m]|] eqn:E; try done.
  unfold sub_margin. rewrite visible_join_map; [done|].
  intros l. apply visible_remove_margin.
  eapply margin_space_tab; [| apply findall_space_tab | exact E]. done.
Qed.

Lemma visible_concat ls : visible (concat ls) = concat (map visible ls).
Proof.
  induction ls as [|l ls IH]; [done|]. simpl. by rewrite visible_app, IH.
Qed.

Lemma visible_indent s p : visible p = [] -> visible (indent s p) = visible s.
Proof.
  intros Hp. unfold indent. rewrite <- (concat_splitlines s) at 2.
  rewrite !visible_concat. f_equal. rewrite map_map. apply map_ext.
  intros l. by rewrite visible_app, Hp.
Qed.

(** X3.  [multipyline] removes whitespace and nothing else: the characters
    of the result that are not whitespace are those of the input, in the
    same order. *)
Theorem multipyline_keeps_text s : visible (multipyline s) = visible s.
Proof. unfold multipyline. by rewrite visible_strip, visible_dedent. Qed.

(** X4.  [multipyline_inner] with a prefix made of whitespace changes
    whitespace and nothing else: the characters of the result that are not
    whitespace are those of the input, in the same order. *)
Theorem multipyline_inner_keeps_text s p :
  forallb isspace p = true ->
  visible (multipyline_inner s p) = visible s.
Proof.
  intros Hp. unfold multipyline_inner.
  rewrite visible_strip, visible_indent by by apply visible_whitespace.
  unfold multipyline. by rewrite visible_strip, visible_dedent.
Qed.

Lemma multipyline_inner_keeps_text_witness :
  forallb isspace (lit "    ") = true
  /\ visible (multipyline_inner two_lines (lit "    ")) = visible two_lines.
Proof.
  assert (H : forallb isspace (lit "    ") = true) by (vm_compute; reflexivity).
  split; [exact H|].
  exact (multipyline_inner_keeps_text two_lines (lit "    ") H).
Defined.

(** X5.  [multipyline s] is empty exactly when [s] is empty or made of
    whitespace, and so is [multipyline_inner s p], whatever the prefix. *)
Theorem multipyline_empty_iff s p :
  (multipyline s = [] <-> forallb isspace s = true)
  /\ (multipyline_inner s p = [] <-> forallb isspace s = true).
Proof.
  assert (H1 : multipyline s = [] <-> forallb isspace s = true).
  { split.
    - intros E. apply visible_nil_inv.
      unfold multipyline in E. by rewrite <- visible_dedent, <- visible_strip, E.
    - intros H. unfold multipyline.
      by apply strip_whitespace, dedent_whitespace. }
  split; [exact H1|]. split.
  - intros E. apply H1. unfold multipyline_inner in E.
    assert (Hv : visible (indent (multipyline s) p) = []).
    { by rewrite <- visible_strip, E. }
    unfold indent in Hv. rewrite visible_concat, map_map in Hv.
    assert (Hz : visible (multipyline s) = []).
    { rewrite <- (concat_splitlines (multipyline s)), visible_concat.
      induction (splitlines true (multipyline s)) as [|l ls IH]; [done|].
      simpl in Hv |- *. rewrite visible_app in Hv.
      apply app_eq_nil in Hv as [[_ ->]%app_eq_nil Hv]. by apply IH. }
    destruct (lstrip_fixed_inv _ (lstrip_strip (dedent s)))
      as [E' | (c & r & E' & Hc)]; [exact E'|].
    unfold multipyline in Hz. rewrite E', visible_cons, Hc in Hz. done.
  - intros H. apply H1 in H. unfold multipyline_inner. by rewrite H.
Qed.

(** ** Nothing is added *)

Lemma lstrip_suffix s :
  exists w, s = w ++ lstrip s /\ forallb isspace w = true.
Proof.
  induction s as [|c s (w & E & Hw)]; [by exists []|]. simpl.
  destruct (isspace c) eqn:Ec; [|by exists []].
  exists (c :: w). simpl. rewrite Ec, Hw. split; [by f_equal | done].
Qed.

Lemma rstrip_prefix s :
  exists w, s = rstrip s ++ w /\ forallb isspace w = true.
Proof.
  destruct (lstrip_suffix (reverse s)) as (w & E & Hw).
  exists (reverse w). split.
  - unfold rstrip. rewrite <- reverse_app, <- E. by rewrite reverse_involutive.
  - apply forallb_Forall, Forall_reverse. by apply forallb_Forall.
Qed.

Lemma strip_sublist s : strip s `sublist_of` s.
Proof.
  unfold strip.
  destruct (lstrip_suffix s) as (w & E & _).
  destruct (rstrip_prefix (lstrip s)) as (w' & E' & _).
  rewrite E at 2. apply sublist_inserts_l.
  rewrite E' at 2. by apply sublist_inserts_r.
Qed.

Lemma join_nl_map_sublist (f : list N -> list N) ls :
  (forall l, f l `sublist_of` l) ->
  join_nl (map f ls) `sublist_of` join_nl ls.
Proof.
  intros Hf. induction ls as [|l [|l' ls] IH].
  - done.
  - apply Hf.
  - simpl map in *. rewrite !join_nl_cons.
    apply sublist_app; [apply Hf|]. by apply sublist_skip.
Qed.

Lemma dedent_sublist s : dedent s `sublist_of` s.
Proof.
  unfold dedent.
  assert (Ht : sub_whitespace_only s `sublist_of` s).
  { rewrite <- (join_split_nl s) at 2. apply join_nl_map_sublist.
    intros l. unfold blank_whitespace_only.
    destruct (forallb _ l); [apply sublist_nil_l | done]. }
  destruct (foldl _ _ _) as [[|c m]|]; try done.
  etrans; [|exact Ht]. unfold sub_margin.
  rewrite <- (join_split_nl (sub_whitespace_only s)) at 2.
  apply join_nl_map_sublist. intros l. unfold remove_margin.
  destruct (startswith _ _); [apply sublist_drop | done].
Qed.

(** X6.  [multipyline] adds nothing and moves nothing: its result is made
    of characters of the input, in their order, and is no longer than the
    input. *)
Theorem multipyline_sublist s :
  multipyline s `sublist_of` s
  /\ (length (multipyline s) <= length s)%nat.
Proof.
  assert (H : multipyline s `sublist_of` s).
  { unfold multipyline. etrans; [apply strip_sublist | apply dedent_sublist]. }
  split; [exact H | by apply sublist_length].
Qed.

(** ** The texts that [multipyline] leaves alone *)

(** X7.  [multipyline] returns its input unchanged exactly when the input
    neither begins nor ends with whitespace and none of its lines (between
    newlines) is made of spaces and tabs only. *)
Theorem multipyline_fixed_iff s :
  multipyline s = s
  <-> trimmed s
      /\ Forall (fun l => l <> [] -> forallb is_space_or_tab l = false)
                (split_nl s).
Proof.
  split.
  - intros E. split.
    + rewrite <- E. apply strip_trimmed.
    + assert (Hc : clean s).
      { rewrite <- E. apply strip_clean, dedent_clean. }
      eapply Forall_impl; [exact Hc|]. intros l Hl Hne.
      by destruct (clean_line_inv l Hl).
  - intros [[Hl Hr]%trimmed_fixed Hc].
    unfold multipyline. rewrite dedent_fixed; [by apply strip_fixed | | done].
    eapply Forall_impl; [exact Hc|]. intros l Hl'.
    unfold clean_line, blank_whitespace_only.
    destruct l as [|c l]; [done|]. by rewrite Hl'.
Qed.

(** ** [multipyline_inner] and [multipyline] *)

Lemma indent_empty_prefix s : indent s [] = s.
Proof.
  unfold indent. by rewrite (map_ext _ id), map_id, concat_splitlines.
Qed.

(** X8.  With the empty prefix [multipyline_inner] is [multipyline], and
    [multipyline_inner] gives the same whether or not [multipyline] has been
    applied to its argument before. *)
Theorem multipyline_inner_multipyline s p :
  multipyline_inner s [] = multipyline s
  /\ multipyline_inner (multipyline s) p = multipyline_inner s p.
Proof.
  split.
  - unfold multipyline_inner. rewrite indent_empty_prefix.
    unfold multipyline. apply strip_idemp.
  - unfold multipyline_inner. by rewrite multipyline_fixed_of_multipyline.
Qed.

(** ** Arguments of one line *)

Lemma replace_markers_take s :
  forall args,
    replace_markers s (take (count s TEMPLATE) args) = replace_markers s args.
Proof.
  induction s as [| c | c d r IH1 IH2] using list_ind2; intros args.
  - done.
  - done.
  - destruct (startswith (c :: d :: r) TEMPLATE) eqn:E.
    + apply startswith_TEMPLATE_inv in E as [r' [= -> -> <-]].
      rewrite count_marker. destruct args as [|a args]; [done|].
      simpl take. by rewrite !replace_markers_marker, IH1.
    + rewrite count_other, !(replace_markers_other c) by done.
      by rewrite IH2.
Qed.

Lemma formatted_argument_one_line line a :
  (length (splitlines false a) <= 1)%nat -> formatted_argument line a = a.
Proof.
  intros H. unfold formatted_argument.
  by destruct (Nat.ltb_spec 1 (length (splitlines false a))); [lia|].
Qed.

Lemma zip_with_formatted_one_line lines args :
  Forall (fun a => (length (splitlines false a) <= 1)%nat) args ->
  zip_with formatted_argument lines args = take (length lines) args.
Proof.
  intros H. revert lines.
  induction H as [|a args Ha _ IH]; intros [|l lines]; try done.
  simpl. by rewrite formatted_argument_one_line, IH.
Qed.

(** X9.  When every argument has at most one line, the template has no
    brace other than those of its markers, no line of it has two markers and
    the arguments suffice, [multipylinef] puts the arguments in place of the
    markers as they are, in order, and returns [multipyline] of the
    outcome. *)
Theorem multipylinef_one_line_arguments s args :
  plain s = true ->
  single_markers (splitlines false s) ->
  (count s TEMPLATE <= length args)%nat ->
  Forall (fun a => (length (splitlines false a) <= 1)%nat) args ->
  multipylinef s args = Return (multipyline (replace_markers s args)).
Proof.
  intros Hp Hs Hn Ha. rewrite multipylinef_plain by done.
  rewrite zip_with_formatted_one_line by done.
  by rewrite <- (count_marker_lines s Hs), replace_markers_take.
Qed.

Lemma multipylinef_one_line_arguments_witness :
  plain (join_nl [lit "line1"; lit "{}"; lit "  x = {}"]) = true
  /\ single_markers
       (splitlines false (join_nl [lit "line1"; lit "{}"; lit "  x = {}"]))
  /\ (count (join_nl [lit "line1"; lit "{}"; lit "  x = {}"]) TEMPLATE
      <= length [lit "  X"; lit "{Y}"])%nat
  /\ Forall (fun a => (length (splitlines false a) <= 1)%nat)
            [lit "  X"; lit "{Y}"]
  /\ multipylinef (join_nl [lit "line1"; lit "{}"; lit "  x = {}"])
       [lit "  X"; lit "{Y}"]
     = Return (multipyline
                 (replace_markers
                    (join_nl [lit "line1"; lit "{}"; lit "  x = {}"])
                    [lit "  X"; lit "{Y}"])).
Proof.
  assert (H1 : plain (join_nl [lit "line1"; lit "{}"; lit "  x = {}"]) = true)
    by (vm_compute; reflexivity).
  assert (H2 : single_markers
            (splitlines false (join_nl [lit "line1"; lit "{}"; lit "  x = {}"])))
    by (vm_compute; repeat constructor).
  assert (H3 : (count (join_nl [lit "line1"; lit "{}"; lit "  x = {}"]) TEMPLATE
                <= length [lit "  X"; lit "{Y}"])%nat) by (vm_compute; lia).
  assert (H4 : Forall (fun a => (length (splitlines false a) <= 1)%nat)
                      [lit "  X"; lit "{Y}"])
    by (vm_compute; repeat constructor).
  split; [exact H1|]. split; [exact H2|]. split; [exact H3|].
  split; [exact H4|].
  exact (multipylinef_one_line_arguments _ _ H1 H2 H3 H4).
Defined.

(** ** A block put at an indented marker *)

Lemma multipyline_nil_inv s : multipyline s = [] -> forallb isspace s = true.
Proof.
  intros E. apply visible_nil_inv. unfold multipyline in E.
  by rewrite <- visible_dedent, <- visible_strip, E.
Qed.

Lemma strip_indent m p :
  lstrip m = m -> rstrip m = m -> m <> [] ->
  indent m p = p ++ drop (length p) (indent m p)
  /\ strip (indent m p) = lstrip p ++ drop (length p) (indent m p).
Proof.
  intros Hl Hr Hne.
  destruct (lstrip_fixed_inv _ Hl) as [-> | (c & r & -> & Hc)]; [done|].
  destruct (rstrip_fixed_last _ Hr Hne) as (z & Hz & Hzs).
  pose proof (last_indent (c :: r) p) as HL.
  destruct (indent_cons_shape c r p) as [Z EZ]. rewrite EZ in *.
  rewrite drop_app_length. split; [done|].
  unfold strip. rewrite lstrip_app_nonspace by done.
  apply rstrip_last with z; [|done].
  rewrite last_app in HL |- *.
  destruct (last (c :: Z)) eqn:E1; [congruence|].
  rewrite last_cons in E1. by destruct (last Z).
Qed.

Lemma space_tab_no_linebreak ws :
  forallb is_space_or_tab ws = true -> no_linebreak ws.
Proof.
  induction ws as [|c ws IH]; [done|]. simpl.
  intros [Hc Hws]%andb_true_iff. apply no_linebreak_cons. split; [|by apply IH].
  unfold is_space_or_tab in Hc. apply orb_true_iff in Hc.
  by destruct Hc as [->%N.eqb_eq | ->%N.eqb_eq].
Qed.

Lemma space_tab_whitespace ws :
  forallb is_space_or_tab ws = true -> forallb isspace ws = true.
Proof.
  rewrite !forallb_Forall. intros H. eapply Forall_impl; [exact H|].
  apply space_or_tab_isspace.
Qed.

Lemma indent_multipyline_inner a ws :
  forallb is_space_or_tab ws = true ->
  forallb isspace a = false ->
  ws ++ multipyline_inner a ws = indent (multipyline a) ws.
Proof.
  intros Hws Ha.
  assert (Hne : multipyline a <> []).
  { intros E%multipyline_nil_inv. congruence. }
  destruct (strip_indent (multipyline a) ws) as [E1 E2];
    [apply lstrip_strip | apply rstrip_strip | done |].
  unfold multipyline_inner.
  rewrite E2, (lstrip_whitespace ws) by by apply space_tab_whitespace.
  rewrite app_nil_l. symmetry. exact E1.
Qed.

(** X10.  When the prefix [ws] is made of spaces and tabs and the argument
    is not blank, [multipyline_inner a ws] put after [ws] is the dedented and
    trimmed argument with [ws] in front of each of its lines: the block
    stands at the column where it is inserted. *)
Theorem multipyline_inner_aligned a ws :
  forallb is_space_or_tab ws = true ->
  forallb isspace a = false ->
  ws ++ multipyline_inner a ws = indent (multipyline a) ws
  /\ splitlines false (ws ++ multipyline_inner a ws)
     = map (app ws) (splitlines false (multipyline a)).
Proof.
  intros Hws Ha.
  pose proof (indent_multipyline_inner a ws Hws Ha) as E.
  split; [exact E|]. rewrite E.
  destruct ws as [|c ws].
  - rewrite indent_empty_prefix. by rewrite (map_ext _ id), map_id.
  - apply splitlines_indent; [done | by apply space_tab_no_linebreak].
Qed.

Lemma multipyline_inner_aligned_witness :
  forallb is_space_or_tab (lit "    ") = true
  /\ forallb isspace (join_nl [lit "  if x:"; lit "    y"; []]) = false
  /\ lit "    " ++ multipyline_inner (join_nl [lit "  if x:"; lit "    y"; []])
                     (lit "    ")
     = indent (multipyline (join_nl [lit "  if x:"; lit "    y"; []]))
              (lit "    ")
  /\ splitlines false
       (lit "    " ++ multipyline_inner
                        (join_nl [lit "  if x:"; lit "    y"; []]) (lit "    "))
     = map (app (lit "    "))
           (splitlines false
              (multipyline (join_nl [lit "  if x:"; lit "    y"; []]))).
Proof.
  assert (H1 : forallb is_space_or_tab (lit "    ") = true)
    by (vm_compute; reflexivity).
  assert (H2 : forallb isspace (join_nl [lit "  if x:"; lit "    y"; []])
               = false) by (vm_compute; reflexivity).
  split; [exact H1|]. split; [exact H2|].
  exact (multipyline_inner_aligned _ _ H1 H2).
Defined.

(** ** The template around one marker *)

Lemma space_tab_no_brace ws :
  forallb is_space_or_tab ws = true -> forallb no_brace ws = true.
Proof.
  rewrite !forallb_Forall. intros H. eapply Forall_impl; [exact H|].
  intros c Hc. unfold is_space_or_tab in Hc. apply orb_true_iff in Hc.
  by destruct Hc as [->%N.eqb_eq | ->%N.eqb_eq].
Qed.

Lemma plain_app_no_brace u v :
  forallb no_brace u = true -> plain (u ++ v) = plain v.
Proof.
  induction u as [|c u IH]; [done|]. simpl forallb.
  intros [[H1 H2]%no_brace_inv Hu]%andb_true_iff.
  rewrite <- app_comm_cons, plain_other by done. auto.
Qed.

Lemma count_app_no_brace u v :
  forallb no_brace u = true -> count (u ++ v) TEMPLATE = count v TEMPLATE.
Proof.
  induction u as [|c u IH]; [done|]. simpl forallb.
  intros [[H1 H2]%no_brace_inv Hu]%andb_true_iff.
  rewrite <- app_comm_cons, count_not_lbrace by done. auto.
Qed.

Lemma replace_markers_app_no_brace u v args :
  forallb no_brace u = true ->
  replace_markers (u ++ v) args = u ++ replace_markers v args.
Proof.
  induction u as [|c u IH]; [done|]. simpl forallb.
  intros [[H1 H2]%no_brace_inv Hu]%andb_true_iff.
  rewrite <- !app_comm_cons, replace_markers_other, IH; [done | done |].
  rewrite startswith_TEMPLATE.
  destruct (u ++ v); [done|]. by destruct (N.eqb_spec c LBRACE).
Qed.

Lemma ends_line_cons c r :
  ends_line (c :: r) = true ->
  (r = [] /\ is_linebreak c = true) \/ (r <> [] /\ ends_line r = true).
Proof.
  unfold ends_line. rewrite last_cons.
  destruct r as [|d r]; [by left|]. right. split; [done|].
  by destruct (last (d :: r)).
Qed.

(** After a text that ends a line, the lines of what follows are the same
    as on their own. *)
Lemma splitlines_app_ended k before rest :
  ends_line before = true -> head rest <> Some LF ->
  splitlines k (before ++ rest) = splitlines k before ++ splitlines k rest.
Proof.
  intros He Hr. revert He.
  induction before as [| r IH | c r Hc Hn IH | c r Hc IH] using lines_ind;
    intros He.
  - done.
  - change ((CR :: LF :: r) ++ rest) with (CR :: LF :: (r ++ rest)).
    rewrite !splitlines_crlf, IH; [done|].
    destruct (ends_line_cons _ _ He) as [[? ?] | [_ He']]; [done|].
    destruct (ends_line_cons _ _ He') as [[-> _] | [_ ?]]; done.
  - assert (He' : ends_line r = true).
    { destruct (ends_line_cons _ _ He) as [[-> _] | [_ ?]]; done. }
    rewrite <- app_comm_cons, !splitlines_break, IH; try done.
    unfold crlf in *. destruct r as [|d r]; [|done]. simpl.
    destruct rest as [|e rest]; [done|].
    destruct (N.eqb_spec e LF) as [-> | _]; [done|]. apply andb_false_r.
  - destruct (ends_line_cons _ _ He) as [[_ ?] | [Hne He']]; [congruence|].
    rewrite <- app_comm_cons, !splitlines_char, IH by done.
    destruct (splitlines k r) as [|l ls] eqn:E; [|done].
    by apply splitlines_nil_inv in E.
Qed.

Lemma single_markers_of_sum lines :
  (sum_list (map (fun l => count l TEMPLATE) lines) <= 1)%nat ->
  single_markers lines.
Proof.
  induction lines as [|l lines IH]; [constructor|]. simpl. intros H.
  constructor; [lia|]. apply IH. lia.
Qed.

Lemma marker_lines_one_marker before pre after :
  forallb no_brace before = true -> ends_line before = true ->
  forallb no_brace pre = true -> no_linebreak pre ->
  forallb no_brace after = true ->
  exists post,
    marker_lines (before ++ pre ++ TEMPLATE ++ after)
      = [pre ++ TEMPLATE ++ post]
    /\ count (pre ++ TEMPLATE ++ post) TEMPLATE = 1%nat
    /\ no_newline (pre ++ TEMPLATE ++ post).
Proof.
  intros Hb He Hpre Hpl Ha.
  pose proof (marker_lines_nil before (no_brace_count _ Hb)) as Mb.
  pose proof (marker_lines_nil after (no_brace_count _ Ha)) as Ma.
  pose proof (splitlines_lines_no_linebreak after) as Hnl.
  unfold marker_lines in *. rewrite splitlines_app_ended; [|done|].
  2:{ destruct pre as [|c pre]; [by rewrite TEMPLATE_eq|]. simpl.
      apply no_linebreak_cons in Hpl as [Hc _]. intros [= ->]. done. }
  rewrite List.filter_app, Mb, app_nil_l.
  assert (Hp : no_linebreak (pre ++ TEMPLATE)).
  { unfold no_linebreak in *. rewrite existsb_app, Hpl. by rewrite TEMPLATE_eq. }
  rewrite (app_assoc pre TEMPLATE after), splitlines_app_prefix by done.
  assert (Hpost : forall post,
            count post TEMPLATE = 0%nat -> no_linebreak post ->
            contains TEMPLATE ((pre ++ TEMPLATE) ++ post) = true
            /\ count (pre ++ TEMPLATE ++ post) TEMPLATE = 1%nat
            /\ no_newline (pre ++ TEMPLATE ++ post)).
  { intros post Hc Hn. split; [|split].
    - rewrite contains_count, <- app_assoc.
      pose proof (count_app_marker_pos pre post).
      by destruct (Nat.eqb_spec (count (pre ++ TEMPLATE ++ post) TEMPLATE) 0);
        [lia|].
    - rewrite count_app_no_brace by done.
      rewrite TEMPLATE_eq. simpl app. by rewrite count_marker, Hc.
    - apply no_linebreak_no_newline. unfold no_linebreak in *.
      rewrite app_assoc, existsb_app, Hp. exact Hn. }
  destruct (splitlines false after) as [|l ls].
  - exists []. destruct (Hpost []) as (H1 & H2 & H3); [done | done |].
    rewrite app_nil_r in *.
    assert (Hx : forall x : list N,
              x <> [] -> match x with [] => [] | _ :: _ => [x] end = [x])
      by by intros [|].
    rewrite Hx by (destruct pre; by rewrite TEMPLATE_eq).
    simpl. by rewrite H1.
  - simpl in Ma. inversion Hnl as [|? ? Hl _]; subst.
    destruct (contains TEMPLATE l) eqn:El; [done|].
    assert (Hc : count l TEMPLATE = 0%nat).
    { rewrite contains_count in El.
      by destruct (Nat.eqb_spec (count l TEMPLATE) 0). }
    exists l. destruct (Hpost l Hc Hl) as (H1 & H2 & H3).
    simpl. by rewrite H1, Ma, <- app_assoc.
Qed.

(** The call on a template with one marker and no other brace: what stands
    before the marker on its line decides how the argument is put in. *)
Lemma multipylinef_one_marker before pre after a rest :
  forallb no_brace before = true ->
  ends_line before = true ->
  forallb no_brace pre = true -> no_linebreak pre ->
  forallb no_brace after = true ->
  multipylinef (before ++ pre ++ TEMPLATE ++ after) (a :: rest)
  = Return (multipyline
              (before ++ pre
               ++ (if (1 <? length (splitlines false a))%nat
                      && forallb is_space_or_tab pre
                   then multipyline_inner a pre else a)
               ++ after)).
Proof.
  intros Hb He Hpre Hpl Ha.
  destruct (marker_lines_one_marker before pre after Hb He Hpre Hpl Ha)
    as (post & Hm & Hone & Hnl).
  assert (Hc : count (before ++ pre ++ TEMPLATE ++ after) TEMPLATE = 1%nat).
  { rewrite !count_app_no_brace by done.
    rewrite TEMPLATE_eq. simpl app. by rewrite count_marker, no_brace_count. }
  rewrite multipylinef_plain.
  - rewrite Hm. cbn [zip_with]. rewrite formatted_argument_spec by done.
    rewrite dedent_line_marker by done.
    rewrite !replace_markers_app_no_brace by done.
    change (TEMPLATE ++ after) with (LBRACE :: RBRACE :: after).
    by rewrite replace_markers_marker, replace_markers_nil.
  - rewrite !plain_app_no_brace by done.
    rewrite TEMPLATE_eq. simpl. by apply no_brace_plain.
  - apply single_markers_of_sum. rewrite <- count_splitlines. lia.
  - rewrite Hc. simpl. lia.
Qed.

(** X11.  A template with one marker, preceded on its line by spaces and
    tabs only, and no other brace; an argument of more than one line that is
    not blank.  [multipylinef] returns [multipyline] of the template in which
    the marker line holds the dedented and trimmed argument, each of its
    lines after the spaces and tabs that stood before the marker.  Further
    arguments are ignored. *)
Theorem multipylinef_block_at_marker before ws after a rest :
  forallb no_brace before = true ->
  ends_line before = true ->
  forallb is_space_or_tab ws = true ->
  forallb no_brace after = true ->
  (1 < length (splitlines false a))%nat ->
  forallb isspace a = false ->
  multipylinef (before ++ ws ++ TEMPLATE ++ after) (a :: rest)
  = Return (multipyline (before ++ indent (multipyline a) ws ++ after)).
Proof.
  intros Hb He Hws Ha Hlines Hblank.
  rewrite multipylinef_one_marker
    by (done || by apply space_tab_no_brace || by apply space_tab_no_linebreak).
  rewrite Hws. destruct (Nat.ltb_spec 1 (length (splitlines false a))); [|lia].
  cbn [andb]. rewrite <- (indent_multipyline_inner a ws Hws Hblank).
  by rewrite <- app_assoc.
Qed.

Lemma multipylinef_block_at_marker_witness :
  forallb no_brace (lit "  def fun(x):" ++ [LF]) = true
  /\ ends_line (lit "  def fun(x):" ++ [LF]) = true
  /\ forallb is_space_or_tab (lit "      ") = true
  /\ forallb no_brace (LF :: lit "  # end") = true
  /\ (1 < length (splitlines false (join_nl [lit " if x:"; lit "   y"; []])))%nat
  /\ forallb isspace (join_nl [lit " if x:"; lit "   y"; []]) = false
  /\ multipylinef
       ((lit "  def fun(x):" ++ [LF]) ++ lit "      " ++ TEMPLATE
        ++ LF :: lit "  # end")
       [join_nl [lit " if x:"; lit "   y"; []]]
     = Return (multipyline
                 ((lit "  def fun(x):" ++ [LF])
                  ++ indent (multipyline (join_nl [lit " if x:"; lit "   y"; []]))
                            (lit "      ")
                  ++ LF :: lit "  # end")).
Proof.
  assert (H1 : forallb no_brace (lit "  def fun(x):" ++ [LF]) = true)
    by (vm_compute; reflexivity).
  assert (H2 : ends_line (lit "  def fun(x):" ++ [LF]) = true)
    by (vm_compute; reflexivity).
  assert (H3 : forallb is_space_or_tab (lit "      ") = true)
    by (vm_compute; reflexivity).
  assert (H4 : forallb no_brace (LF :: lit "  # end") = true)
    by (vm_compute; reflexivity).
  assert (H5 : (1 < length (splitlines false
                              (join_nl [lit " if x:"; lit "   y"; []])))%nat)
    by (vm_compute; lia).
  assert (H6 : forallb isspace (join_nl [lit " if x:"; lit "   y"; []]) = false)
    by (vm_compute; reflexivity).
  split; [exact H1|]. split; [exact H2|]. split; [exact H3|].
  split; [exact H4|]. split; [exact H5|]. split; [exact H6|].
  exact (multipylinef_block_at_marker _ _ _ _ [] H1 H2 H3 H4 H5 H6).
Defined.

Example multipylinef_block_at_marker_value :
  multipylinef
    ((lit "  def fun(x):" ++ [LF]) ++ lit "      " ++ TEMPLATE
     ++ LF :: lit "  # end")
    [join_nl [lit " if x:"; lit "   y"; []]]
  = Return (join_nl [lit "def fun(x):"; lit "    if x:"; lit "      y";
                     lit "# end"]).
Proof. vm_compute. reflexivity. Qed.

(** X12.  With the same template and an argument of more than one line
    that is blank, the marker is replaced by nothing: [multipylinef] returns
    [multipyline] of the template without its marker. *)
Theorem multipylinef_blank_block before ws after a rest :
  forallb no_brace before = true ->
  ends_line before = true ->
  forallb is_space_or_tab ws = true ->
  forallb no_brace after = true ->
  (1 < length (splitlines false a))%nat ->
  forallb isspace a = true ->
  multipylinef (before ++ ws ++ TEMPLATE ++ after) (a :: rest)
  = Return (multipyline (before ++ ws ++ after)).
Proof.
  intros Hb He Hws Ha Hlines Hblank.
  rewrite multipylinef_one_marker
    by (done || by apply space_tab_no_brace || by apply space_tab_no_linebreak).
  rewrite Hws. destruct (Nat.ltb_spec 1 (length (splitlines false a))); [|lia].
  cbn [andb].
  assert (E : multipyline_inner a ws = []).
  { unfold multipyline_inner, multipyline.
    by rewrite (strip_whitespace (dedent a)) by by apply dedent_whitespace. }
  by rewrite E.
Qed.

Lemma multipylinef_blank_block_witness :
  forallb no_brace (lit "  a:" ++ [LF]) = true
  /\ ends_line (lit "  a:" ++ [LF]) = true
  /\ forallb is_space_or_tab (lit "    ") = true
  /\ forallb no_brace (LF :: lit "  b") = true
  /\ (1 < length (splitlines false [LF; SPACE; LF]))%nat
  /\ forallb isspace [LF; SPACE; LF] = true
  /\ multipylinef
       ((lit "  a:" ++ [LF]) ++ lit "    " ++ TEMPLATE ++ LF :: lit "  b")
       [[LF; SPACE; LF]]
     = Return (multipyline
                 ((lit "  a:" ++ [LF]) ++ lit "    " ++ LF :: lit "  b")).
Proof.
  assert (H1 : forallb no_brace (lit "  a:" ++ [LF]) = true)
    by (vm_compute; reflexivity).
  assert (H2 : ends_line (lit "  a:" ++ [LF]) = true)
    by (vm_compute; reflexivity).
  assert (H3 : forallb is_space_or_tab (lit "    ") = true)
    by (vm_compute; reflexivity).
  assert (H4 : forallb no_brace (LF :: lit "  b") = true)
    by (vm_compute; reflexivity).
  assert (H5 : (1 < length (splitlines false [LF; SPACE; LF]))%nat)
    by (vm_compute; lia).
  assert (H6 : forallb isspace [LF; SPACE; LF] = true)
    by (vm_compute; reflexivity).
  split; [exact H1|]. split; [exact H2|]. split; [exact H3|].
  split; [exact H4|]. split; [exact H5|]. split; [exact H6|].
  exact (multipylinef_blank_block _ _ _ _ [] H1 H2 H3 H4 H5 H6).
Defined.

(** X13.  A template with one marker and no other brace, where the text
    before the marker on its line is not made of spaces and tabs only: the
    argument is put in as it is, of one line or of more, and the lines of
    the argument after the first get no indentation. *)
Theorem multipylinef_after_text before pre after a rest :
  forallb no_brace before = true ->
  ends_line before = true ->
  forallb no_brace pre = true -> no_linebreak pre ->
  forallb is_space_or_tab pre = false ->
  forallb no_brace after = true ->
  multipylinef (before ++ pre ++ TEMPLATE ++ after) (a :: rest)
  = Return (multipyline (before ++ pre ++ a ++ after)).
Proof.
  intros Hb He Hpre Hpl Hst Ha.
  rewrite multipylinef_one_marker by done.
  by rewrite Hst, andb_false_r.
Qed.

Lemma multipylinef_after_text_witness :
  forallb no_brace (lit "  def f():" ++ [LF]) = true
  /\ ends_line (lit "  def f():" ++ [LF]) = true
  /\ forallb no_brace (lit "    x = ") = true
  /\ no_linebreak (lit "    x = ")
  /\ forallb is_space_or_tab (lit "    x = ") = false
  /\ forallb no_brace (@nil N) = true
  /\ multipylinef
       ((lit "  def f():" ++ [LF]) ++ lit "    x = " ++ TEMPLATE ++ [])
       [two_lines]
     = Return (multipyline
                 ((lit "  def f():" ++ [LF]) ++ lit "    x = " ++ two_lines
                  ++ [])).
Proof.
  assert (H1 : forallb no_brace (lit "  def f():" ++ [LF]) = true)
    by (vm_compute; reflexivity).
  assert (H2 : ends_line (lit "  def f():" ++ [LF]) = true)
    by (vm_compute; reflexivity).
  assert (H3 : forallb no_brace (lit "    x = ") = true)
    by (vm_compute; reflexivity).
  assert (H4 : no_linebreak (lit "    x = ")) by (vm_compute; reflexivity).
  assert (H5 : forallb is_space_or_tab (lit "    x = ") = false)
    by (vm_compute; reflexivity).
  assert (H6 : forallb no_brace (@nil N) = true) by reflexivity.
  split; [exact H1|]. split; [exact H2|]. split; [exact H3|].
  split; [exact H4|]. split; [exact H5|]. split; [exact H6|].
  exact (multipylinef_after_text _ _ _ two_lines [] H1 H2 H3 H4 H5 H6).
Defined.

(** ** The common indentation of the input does not matter *)

Lemma startswith_app_app m a b : startswith (m ++ a) (m ++ b) = startswith a b.
Proof. induction m as [|x m IH]; [done|]. simpl. by rewrite N.eqb_refl. Qed.

Lemma startswith_trans a b c :
  startswith b a = true -> startswith c b = true -> startswith c a = true.
Proof.
  intros H1%startswith_spec H2%startswith_spec.
  rewrite H2, H1, <- app_assoc. apply startswith_app.
Qed.

Lemma startswith_take a j : startswith a (take j a) = true.
Proof.
  rewrite <- (take_drop j a) at 1. apply startswith_app.
Qed.

Lemma first_mismatch_shift a b k n :
  first_mismatch a b (k + n) = (fun j => (j + n)%nat) <$> first_mismatch a b k.
Proof.
  revert b k. induction a as [|x a IH]; intros [|y b] k; try done.
  simpl. destruct (x =? y); [|done]. apply (IH b (S k)).
Qed.

Lemma first_mismatch_app m a b k :
  first_mismatch (m ++ a) (m ++ b) k = first_mismatch a b (k + length m).
Proof.
  revert k. induction m as [|x m IH]; intros k.
  - simpl. by rewrite Nat.add_0_r.
  - simpl. rewrite N.eqb_refl, IH. f_equal. lia.
Qed.

Lemma first_mismatch_None a b k :
  first_mismatch a b k = None ->
  startswith b a = true \/ startswith a b = true.
Proof.
  revert b k. induction a as [|x a IH]; intros [|y b] k; simpl; auto.
  destruct (N.eqb_spec x y) as [-> | _]; [|done].
  rewrite N.eqb_refl. simpl. apply IH.
Qed.

Lemma first_mismatch_Some a b k j :
  first_mismatch a b k = Some j ->
  (k <= j)%nat /\ startswith b (take (j - k) a) = true.
Proof.
  revert b k. induction a as [|x a IH]; intros [|y b] k; simpl; try done.
  destruct (N.eqb_spec x y) as [-> | _].
  - intros [Hk Hs]%IH. split; [lia|].
    replace (j - k)%nat with (S (j - S k)) by lia. simpl.
    by rewrite N.eqb_refl.
  - intros [= <-]. by rewrite Nat.sub_diag.
Qed.

(** The margin [dedent] keeps after one more indent is a prefix of the
    margin it had and of the indent. *)
Lemma update_margin_prefix acc i u :
  update_margin acc i = Some u ->
  startswith i u = true /\ (forall a, acc = Some a -> startswith a u = true).
Proof.
  unfold update_margin. destruct acc as [a|].
  - destruct (startswith i a) eqn:E1.
    { intros [= <-]. split; [done|]. intros ? [= <-].
      rewrite <- (app_nil_r a) at 1. apply startswith_app. }
    destruct (startswith a i) eqn:E2.
    { intros [= <-]. split.
      - rewrite <- (app_nil_r i) at 1. apply startswith_app.
      - by intros ? [= <-]. }
    destruct (first_mismatch a i 0) as [j|] eqn:E3.
    + intros [= <-]. apply first_mismatch_Some in E3 as [_ E3].
      rewrite Nat.sub_0_r in E3. split; [done|].
      intros ? [= <-]. apply startswith_take.
    + apply first_mismatch_None in E3 as [?|?]; congruence.
  - intros [= <-]. split; [|done].
    rewrite <- (app_nil_r i) at 1. apply startswith_app.
Qed.

Lemma update_margin_Some acc i : exists u, update_margin acc i = Some u.
Proof.
  unfold update_margin. destruct acc as [a|]; [|eauto].
  destruct (startswith i a); [eauto|]. destruct (startswith a i); [eauto|].
  destruct (first_mismatch a i 0); eauto.
Qed.

Lemma margin_prefix indents :
  forall acc M,
    foldl update_margin acc indents = Some M ->
    (forall a, acc = Some a -> startswith a M = true)
    /\ Forall (fun i => startswith i M = true) indents.
Proof.
  induction indents as [|i indents IH]; intros acc M; cbn [foldl].
  - intros ->. split; [|constructor]. intros ? [= <-].
    rewrite <- (app_nil_r M) at 1. apply startswith_app.
  - intros H. destruct (update_margin_Some acc i) as [u Hu].
    rewrite Hu in H. apply IH in H as [H1 H2]. specialize (H1 u eq_refl).
    apply update_margin_prefix in Hu as [Hi Ha]. split.
    + intros a ->. eapply startswith_trans; [exact H1 | by apply Ha].
    + constructor; [|done]. by eapply startswith_trans.
Qed.

Lemma margin_None indents acc :
  foldl update_margin acc indents = None -> acc = None /\ indents = [].
Proof.
  destruct indents as [|i indents]; cbn [foldl]; [done|].
  destruct (update_margin_Some acc i) as [u ->]. intros H. exfalso.
  revert u H. induction indents as [|i' indents IH]; intros u; cbn [foldl];
    [done|].
  destruct (update_margin_Some (Some u) i') as [u' ->]. apply IH.
Qed.

Lemma update_margin_app m acc i :
  update_margin (app m <$> acc) (m ++ i) = app m <$> update_margin acc i.
Proof.
  destruct acc as [a|]; [|done]. simpl.
  rewrite !startswith_app_app.
  destruct (startswith i a); [done|]. destruct (startswith a i); [done|].
  rewrite first_mismatch_app.
  rewrite (first_mismatch_shift a i 0 (length m)).
  destruct (first_mismatch a i 0) as [j|]; [|done]. simpl.
  by rewrite Nat.add_comm, take_app_add.
Qed.

Lemma margin_app m indents :
  forall acc,
    foldl update_margin (app m <$> acc) (map (app m) indents)
    = app m <$> foldl update_margin acc indents.
Proof.
  induction indents as [|i indents IH]; intros acc; [done|].
  cbn [foldl map]. by rewrite update_margin_app, IH.
Qed.

Lemma leading_whitespace_app_margin m x :
  forallb is_space_or_tab m = true ->
  leading_whitespace (m ++ x) = app m <$> leading_whitespace x.
Proof.
  induction m as [|c m IH]; simpl.
  - intros _. by destruct (leading_whitespace x).
  - intros [-> Hm]%andb_true_iff. rewrite IH by done.
    by destruct (leading_whitespace x).
Qed.

Lemma blank_indented m l :
  forallb is_space_or_tab m = true ->
  blank_whitespace_only (m ++ l)
  = if forallb is_space_or_tab l then [] else m ++ l.
Proof.
  intros Hm. unfold blank_whitespace_only. by rewrite forallb_app, Hm.
Qed.

Lemma remove_margin_nil_l l : remove_margin [] l = l.
Proof. done. Qed.

Lemma remove_margin_nil_r m : remove_margin m [] = [].
Proof. unfold remove_margin. destruct (startswith [] m); by rewrite ?drop_nil. Qed.

Lemma blank_true l :
  forallb is_space_or_tab l = true -> blank_whitespace_only l = [].
Proof. intros H. unfold blank_whitespace_only. by rewrite H. Qed.

Lemma blank_false l :
  forallb is_space_or_tab l = false -> blank_whitespace_only l = l.
Proof. intros H. unfold blank_whitespace_only. by rewrite H. Qed.

Lemma omap_leading_cons l ls :
  omap leading_whitespace (l :: ls)
  = match leading_whitespace l with
    | Some w => w :: omap leading_whitespace ls
    | None => omap leading_whitespace ls
    end.
Proof. reflexivity. Qed.

Lemma indents_indented m ls :
  forallb is_space_or_tab m = true ->
  omap leading_whitespace (map (fun l => blank_whitespace_only (m ++ l)) ls)
  = map (app m) (omap leading_whitespace (map blank_whitespace_only ls)).
Proof.
  intros Hm. induction ls as [|l ls IH]; [done|].
  cbn [map]. rewrite !omap_leading_cons, IH, blank_indented by done.
  destruct (forallb is_space_or_tab l) eqn:E.
  - by rewrite blank_true.
  - rewrite blank_false, leading_whitespace_app_margin by done.
    by destruct (leading_whitespace l).
Qed.

Lemma lines_indented_no_indent m ls :
  forallb is_space_or_tab m = true ->
  omap leading_whitespace (map blank_whitespace_only ls) = [] ->
  map (fun l => blank_whitespace_only (m ++ l)) ls
  = map blank_whitespace_only ls.
Proof.
  intros Hm. induction ls as [|l ls IH]; [done|].
  cbn [map]. rewrite omap_leading_cons, blank_indented by done.
  destruct (forallb is_space_or_tab l) eqn:E.
  - rewrite blank_true by done. cbn [leading_whitespace].
    intros H. by rewrite IH.
  - rewrite blank_false by done.
    destruct (leading_whitespace l) eqn:El; [done|].
    apply leading_whitespace_None in El. congruence.
Qed.

Lemma lines_indented_margin m M ls :
  forallb is_space_or_tab m = true ->
  Forall (fun i => startswith i M = true)
         (omap leading_whitespace (map blank_whitespace_only ls)) ->
  map (remove_margin (m ++ M))
      (map (fun l => blank_whitespace_only (m ++ l)) ls)
  = map (remove_margin M) (map blank_whitespace_only ls).
Proof.
  intros Hm. induction ls as [|l ls IH]; [done|].
  cbn [map]. rewrite omap_leading_cons, blank_indented by done.
  destruct (forallb is_space_or_tab l) eqn:E.
  - rewrite blank_true by done. cbn [leading_whitespace].
    intros H. by rewrite !remove_margin_nil_r, IH.
  - rewrite blank_false by done.
    destruct (leading_whitespace l) as [w|] eqn:El.
    2:{ apply leading_whitespace_None in El. congruence. }
    intros H. inversion H as [|? ? Hw Hrest]; subst. rewrite IH by done.
    f_equal. apply leading_whitespace_Some_inv in El as (c & r & El & _).
    assert (Hs : startswith l M = true).
    { eapply startswith_trans; [exact Hw|]. rewrite El. apply startswith_app. }
    unfold remove_margin. rewrite startswith_app_app, Hs.
    by rewrite length_app, drop_app_add.
Qed.

Lemma app_margin_no_newline m l :
  forallb is_space_or_tab m = true -> no_newline l -> no_newline (m ++ l).
Proof.
  intros Hm Hl. apply Forall_app. split; [|done].
  apply forallb_Forall in Hm. eapply Forall_impl; [exact Hm|].
  apply space_or_tab_not_LF.
Qed.

(** [dedent] gives the same for a text and for the text with the same
    spaces and tabs put before each of its lines. *)
Lemma dedent_indented m s :
  forallb is_space_or_tab m = true ->
  dedent (join_nl (map (app m) (split_nl s))) = dedent s.
Proof.
  intros Hm. unfold dedent.
  assert (HT : sub_whitespace_only (join_nl (map (app m) (split_nl s)))
               = join_nl (map (fun l => blank_whitespace_only (m ++ l))
                              (split_nl s))).
  { unfold sub_whitespace_only.
    rewrite split_nl_map_join by (intros l; by apply app_margin_no_newline).
    by rewrite map_map. }
  rewrite HT. unfold findall_leading_whitespace, sub_margin.
  rewrite (split_nl_map_join (fun l => blank_whitespace_only (m ++ l)))
    by (intros l Hl; by apply blank_no_newline, app_margin_no_newline).
  unfold sub_whitespace_only. rewrite split_nl_map_join by apply blank_no_newline.
  rewrite indents_indented by done.
  pose proof (margin_app m
    (omap leading_whitespace (map blank_whitespace_only (split_nl s))) None)
    as HM.
  cbn [fmap option_fmap option_map] in HM. rewrite HM. clear HM.
  destruct (foldl update_margin None _) as [M|] eqn:EM.
  - apply margin_prefix in EM as [_ EM].
    cbn [fmap option_fmap option_map].
    transitivity (join_nl (map (remove_margin M)
                             (map blank_whitespace_only (split_nl s)))).
    + rewrite <- (lines_indented_margin m M) by done.
      destruct (m ++ M) eqn:E; [|done].
      rewrite (map_ext (remove_margin []) id), map_id; done.
    + destruct M; [|done].
      by rewrite (map_ext (remove_margin []) id), map_id.
  - apply margin_None in EM as [_ EM].
    cbn [fmap option_fmap option_map].
    by rewrite lines_indented_no_indent.
Qed.

(** X14.  The common indentation of the input does not matter: putting the
    same spaces and tabs before every line of the input leaves the result of
    [multipyline] as it is. *)
Theorem multipyline_indented m s :
  forallb is_space_or_tab m = true ->
  multipyline (join_nl (map (app m) (split_nl s))) = multipyline s.
Proof. intros Hm. unfold multipyline. by rewrite dedent_indented. Qed.

Lemma multipyline_indented_witness :
  forallb is_space_or_tab [SPACE; TAB; SPACE] = true
  /\ multipyline
       (join_nl (map (app [SPACE; TAB; SPACE])
                     (split_nl (join_nl [lit "  a"; lit " "; lit "    b"]))))
     = multipyline (join_nl [lit "  a"; lit " "; lit "    b"]).
Proof.
  assert (H : forallb is_space_or_tab [SPACE; TAB; SPACE] = true)
    by (vm_compute; reflexivity).
  split; [exact H|].
  exact (multipyline_indented _ (join_nl [lit "  a"; lit " "; lit "    b"]) H).
Defined.
